(** * Dual traffic light controller: signal control engine

    A shallow embedding of [python_code/traffic_light_controller.py]
    (class [DualTrafficLightAI]): the detection stabiliser
    [get_confirmed_car_count], the command emitter [send_commands], the mode
    state machine [update_traffic_lights] and the reset handler of [run],
    followed by the properties of the engine.

    Modelling conventions.
    - Readings of [time.time()] are rationals (seconds); every method call
      receives its readings through an environment [Env].
    - The serial port is the list of byte strings handed to
      [self.arduino.write], in call order (the output of the monad); whether
      the call raises is decided by the environment.
    - Python exceptions keep the side effects made before they were raised,
      so a computation always yields a final object state and output next
      to its result. *)

From Stdlib Require Import ZArith QArith Bool List String Ascii Lia Lqa.
From Stdlib.Strings Require Import Byte.
From Stdlib Require Import DecimalString.
Import ListNotations.

Set Implicit Arguments.

(* ================================================================== *)
(** ** Configuration constants *)

Definition YELLOW_DURATION : Q := 2.
Definition HIGH_TRAFFIC_TIMER : Q := 30.
Definition HIGH_TRAFFIC_THRESHOLD : Z := 8.
Definition LOW_TRAFFIC_THRESHOLD : Z := 6.
Definition DETECTION_CONFIRMATION_TIME : Q := 3.
Definition DETECTION_HISTORY_SIZE : nat := 10.
(** The reduced confirmation delay [1.5] written inline in
    [get_confirmed_car_count]. *)
Definition HIGH_TRAFFIC_CONFIRMATION_TIME : Q := 3 # 2.

(* ================================================================== *)
(** ** Data model *)

(** The light states ['R'], ['Y'], ['G']. *)
Inductive Light : Set := Red | Yellow | Green.

(** [high_traffic_direction]: ['A'] or ['B']. *)
Inductive Direction : Set := DirA | DirB.

Definition light_eqb (x y : Light) : bool :=
  match x, y with
  | Red, Red | Yellow, Yellow | Green, Green => true
  | _, _ => false
  end.

Definition light_char (l : Light) : ascii :=
  match l with
  | Red => "R"%char
  | Yellow => "Y"%char
  | Green => "G"%char
  end.

(** The instance fields the engine reads or writes.  [None] is Python's
    [None] for the two timers. *)
Record DualTrafficLightAI : Type := mkSelf {
  light_a : Light;
  light_b : Light;
  yellow_start_time : option Q;
  high_traffic_start_time : option Q;
  is_yellow_transition : bool;
  is_high_traffic_mode : bool;
  high_traffic_direction : Direction;
  last_command_time : Q;
  detection_history : list Z;
  confirmed_car_count : Z;
  last_state_change_time : Q;
  pending_car_count : Z
}.

(** [__init__]; [t] is the reading of [time.time()] stored in
    [last_state_change_time]. *)
Definition init (t : Q) : DualTrafficLightAI :=
  {| light_a := Red;
     light_b := Green;
     yellow_start_time := None;
     high_traffic_start_time := None;
     is_yellow_transition := false;
     is_high_traffic_mode := false;
     high_traffic_direction := DirB;
     last_command_time := 0;
     detection_history := [];
     confirmed_car_count := 0;
     last_state_change_time := t;
     pending_car_count := 0 |}.

Definition with_light_a (v : Light) (s : DualTrafficLightAI) :=
  mkSelf v (light_b s) (yellow_start_time s) (high_traffic_start_time s)
    (is_yellow_transition s) (is_high_traffic_mode s) (high_traffic_direction s)
    (last_command_time s) (detection_history s) (confirmed_car_count s)
    (last_state_change_time s) (pending_car_count s).

Definition with_light_b (v : Light) (s : DualTrafficLightAI) :=
  mkSelf (light_a s) v (yellow_start_time s) (high_traffic_start_time s)
    (is_yellow_transition s) (is_high_traffic_mode s) (high_traffic_direction s)
    (last_command_time s) (detection_history s) (confirmed_car_count s)
    (last_state_change_time s) (pending_car_count s).

Definition with_yellow_start_time (v : option Q) (s : DualTrafficLightAI) :=
  mkSelf (light_a s) (light_b s) v (high_traffic_start_time s)
    (is_yellow_transition s) (is_high_traffic_mode s) (high_traffic_direction s)
    (last_command_time s) (detection_history s) (confirmed_car_count s)
    (last_state_change_time s) (pending_car_count s).

Definition with_high_traffic_start_time (v : option Q) (s : DualTrafficLightAI) :=
  mkSelf (light_a s) (light_b s) (yellow_start_time s) v
    (is_yellow_transition s) (is_high_traffic_mode s) (high_traffic_direction s)
    (last_command_time s) (detection_history s) (confirmed_car_count s)
    (last_state_change_time s) (pending_car_count s).

Definition with_is_yellow_transition (v : bool) (s : DualTrafficLightAI) :=
  mkSelf (light_a s) (light_b s) (yellow_start_time s) (high_traffic_start_time s)
    v (is_high_traffic_mode s) (high_traffic_direction s)
    (last_command_time s) (detection_history s) (confirmed_car_count s)
    (last_state_change_time s) (pending_car_count s).

Definition with_is_high_traffic_mode (v : bool) (s : DualTrafficLightAI) :=
  mkSelf (light_a s) (light_b s) (yellow_start_time s) (high_traffic_start_time s)
    (is_yellow_transition s) v (high_traffic_direction s)
    (last_command_time s) (detection_history s) (confirmed_car_count s)
    (last_state_change_time s) (pending_car_count s).

Definition with_high_traffic_direction (v : Direction) (s : DualTrafficLightAI) :=
  mkSelf (light_a s) (light_b s) (yellow_start_time s) (high_traffic_start_time s)
    (is_yellow_transition s) (is_high_traffic_mode s) v
    (last_command_time s) (detection_history s) (confirmed_car_count s)
    (last_state_change_time s) (pending_car_count s).

Definition with_last_command_time (v : Q) (s : DualTrafficLightAI) :=
  mkSelf (light_a s) (light_b s) (yellow_start_time s) (high_traffic_start_time s)
    (is_yellow_transition s) (is_high_traffic_mode s) (high_traffic_direction s)
    v (detection_history s) (confirmed_car_count s)
    (last_state_change_time s) (pending_car_count s).

Definition with_detection_history (v : list Z) (s : DualTrafficLightAI) :=
  mkSelf (light_a s) (light_b s) (yellow_start_time s) (high_traffic_start_time s)
    (is_yellow_transition s) (is_high_traffic_mode s) (high_traffic_direction s)
    (last_command_time s) v (confirmed_car_count s)
    (last_state_change_time s) (pending_car_count s).

Definition with_confirmed_car_count (v : Z) (s : DualTrafficLightAI) :=
  mkSelf (light_a s) (light_b s) (yellow_start_time s) (high_traffic_start_time s)
    (is_yellow_transition s) (is_high_traffic_mode s) (high_traffic_direction s)
    (last_command_time s) (detection_history s) v
    (last_state_change_time s) (pending_car_count s).

Definition with_last_state_change_time (v : Q) (s : DualTrafficLightAI) :=
  mkSelf (light_a s) (light_b s) (yellow_start_time s) (high_traffic_start_time s)
    (is_yellow_transition s) (is_high_traffic_mode s) (high_traffic_direction s)
    (last_command_time s) (detection_history s) (confirmed_car_count s)
    v (pending_car_count s).

Definition with_pending_car_count (v : Z) (s : DualTrafficLightAI) :=
  mkSelf (light_a s) (light_b s) (yellow_start_time s) (high_traffic_start_time s)
    (is_yellow_transition s) (is_high_traffic_mode s) (high_traffic_direction s)
    (last_command_time s) (detection_history s) (confirmed_car_count s)
    (last_state_change_time s) v.

(** The pair of lights the object currently records. *)
Definition lights (s : DualTrafficLightAI) : Light * Light :=
  (light_a s, light_b s).

(* ================================================================== *)
(** ** The method monad: environment, object state, port output, exceptions *)

Definition bytes : Type := list byte.

(** What one method call gets from outside: its reading of the clock at
    entry, the later reading taken by [send_commands] once a write has
    succeeded, and whether a call of [self.arduino.write] returns
    ([true]) or raises ([false]). *)
Record Env : Type := mkEnv {
  clock : Q;
  clock_at_send : Q;
  link_ok : bool
}.

Inductive Exn : Set :=
  | SerialException   (* raised by [serial.Serial.write] *)
  | TypeError.        (* [float - None] *)

Inductive Result (A : Type) : Type :=
  | Return (a : A)
  | Raise (e : Exn).
Arguments Raise {A} e.

Record Res (A : Type) : Type := mkRes {
  result : Result A;
  self_of : DualTrafficLightAI;
  tx : list bytes
}.

Definition M (A : Type) : Type := Env -> DualTrafficLightAI -> Res A.

Definition ret {A} (a : A) : M A :=
  fun _ s => mkRes (Return a) s [].

Definition bind {A B} (m : M A) (f : A -> M B) : M B :=
  fun e s =>
    let r := m e s in
    match result r with
    | Return a =>
        let r' := f a e (self_of r) in
        mkRes (result r') (self_of r') (tx r ++ tx r')
    | Raise x => mkRes (Raise x) (self_of r) (tx r)
    end.

Definition raise {A} (x : Exn) : M A :=
  fun _ s => mkRes (Raise x) s [].

(** [try: m except Exception: h] *)
Definition try_except {A} (m : M A) (h : Exn -> M A) : M A :=
  fun e s =>
    let r := m e s in
    match result r with
    | Return _ => r
    | Raise x =>
        let r' := h x e (self_of r) in
        mkRes (result r') (self_of r') (tx r ++ tx r')
    end.

Declare Scope py_scope.
Delimit Scope py_scope with py.
Notation "x <- m ;; k" := (bind m (fun x => k))
  (at level 61, m at next level, right associativity) : py_scope.
Notation "m ;; k" := (bind m (fun _ => k))
  (at level 61, right associativity) : py_scope.
Local Open Scope py_scope.

(** Reading a field of [self] and assigning to one. *)
Definition gets {A} (f : DualTrafficLightAI -> A) : M A :=
  fun _ s => mkRes (Return (f s)) s [].

Definition assign (f : DualTrafficLightAI -> DualTrafficLightAI) : M unit :=
  fun _ s => mkRes (Return tt) (f s) [].

Definition ask {A} (f : Env -> A) : M A :=
  fun e s => mkRes (Return (f e)) s [].

(** [self.arduino.write(b)]: the call is recorded; it raises when the link
    is down. *)
Definition arduino_write (b : bytes) : M unit :=
  fun e s => mkRes (if link_ok e then Return tt else Raise SerialException) s [b].

(** [now - start] where [start] may still be [None]. *)
Definition elapsed_since (now : Q) (start : option Q) : M Q :=
  match start with
  | Some t0 => ret (now - t0)%Q
  | None => raise TypeError
  end.

Definition pass : M unit := ret tt.

(* ================================================================== *)
(** ** Command emitter: [send_commands] *)

(** The f-string ["A{light_a}B{light_b}"], with ["H"] appended for an alert. *)
Definition command (la lb : Light) (high_traffic_alert : bool) : string :=
  let c := String "A" (String (light_char la) (String "B" (String (light_char lb) EmptyString))) in
  if high_traffic_alert then (c ++ "H")%string else c.

(** [str.encode()] on ASCII text. *)
Definition encode (s : string) : bytes := list_byte_of_string s.

Definition send_commands (la lb : Light) (high_traffic_alert : bool) : M unit :=
  try_except
    (cur_a <- gets light_a ;;
     cur_b <- gets light_b ;;
     if light_eqb cur_a la && light_eqb cur_b lb && negb high_traffic_alert
     then pass
     else
       arduino_write (encode (command la lb high_traffic_alert)) ;;
       assign (with_light_a la) ;;
       assign (with_light_b lb) ;;
       t <- ask clock_at_send ;;
       assign (with_last_command_time t))
    (fun _ => pass).

(** [get_opposite_light] *)
Definition get_opposite_light (l : Light) : Light :=
  match l with
  | Green => Red
  | Red => Green
  | Yellow => Red
  end.

(* ================================================================== *)
(** ** Mode state machine: [update_traffic_lights] *)

(** The alternation block of high-traffic mode.  The source has it twice,
    word for word (count at or above the threshold, and count below it but
    not zero): remember who is green, flip [high_traffic_direction], put the
    side that was green on yellow and start the yellow timer. *)
Definition alternate_direction (current_time : Q) : M unit :=
  current_green <- gets high_traffic_direction ;;
  (match current_green with
   | DirA => assign (with_high_traffic_direction DirB)
   | DirB => assign (with_high_traffic_direction DirA)
   end) ;;
  (match current_green with
   | DirA => send_commands Yellow Red false
   | DirB => send_commands Red Yellow false
   end) ;;
  assign (with_is_yellow_transition true) ;;
  assign (with_yellow_start_time (Some current_time)).

(** The body of [if self.is_yellow_transition:] once the yellow time is
    over. *)
Definition complete_yellow (car_count : Z) (current_time : Q) : M unit :=
  ht <- gets is_high_traffic_mode ;;
  (if ht then
     dir <- gets high_traffic_direction ;;
     (match dir with
      | DirA => send_commands Green Red false
      | DirB => send_commands Red Green false
      end) ;;
     assign (with_high_traffic_start_time (Some current_time))
   else if (HIGH_TRAFFIC_THRESHOLD <=? car_count)%Z then
     dir <- gets high_traffic_direction ;;
     (match dir with
      | DirA => send_commands Green Red true
      | DirB => send_commands Red Green true
      end) ;;
     assign (with_is_high_traffic_mode true) ;;
     assign (with_high_traffic_start_time (Some current_time))
   else if (car_count =? 0)%Z then
     send_commands Red Green false
   else
     send_commands Green Red false) ;;
  assign (with_is_yellow_transition false).

(** The bare alert line [b'H\n']. *)
Definition bare_alert : bytes := [x48; x0a].

Definition update_traffic_lights (car_count : Z) : M unit :=
  current_time <- ask clock ;;
  yellow <- gets is_yellow_transition ;;
  if yellow then
    ys <- gets yellow_start_time ;;
    elapsed <- elapsed_since current_time ys ;;
    if Qle_bool YELLOW_DURATION elapsed
    then complete_yellow car_count current_time
    else pass
  else if (HIGH_TRAFFIC_THRESHOLD <=? car_count)%Z then
    ht <- gets is_high_traffic_mode ;;
    if negb ht then
      a <- gets light_a ;;
      match a with
      | Green =>
          send_commands Yellow Red false ;;
          assign (with_is_yellow_transition true) ;;
          assign (with_yellow_start_time (Some current_time)) ;;
          assign (with_high_traffic_direction DirB)
      | Red =>
          b <- gets light_b ;;
          (if negb (light_eqb b Green)
           then send_commands Red Green true
           else arduino_write bare_alert) ;;
          assign (with_is_high_traffic_mode true) ;;
          assign (with_high_traffic_start_time (Some current_time)) ;;
          assign (with_high_traffic_direction DirB)
      | Yellow => pass
      end
    else
      hs <- gets high_traffic_start_time ;;
      elapsed <- elapsed_since current_time hs ;;
      if Qle_bool HIGH_TRAFFIC_TIMER elapsed then
        if (car_count =? 0)%Z then
          assign (with_is_high_traffic_mode false) ;;
          send_commands Red Green false
        else alternate_direction current_time
      else pass
  else
    ht <- gets is_high_traffic_mode ;;
    if ht then
      if (car_count =? 0)%Z then
        assign (with_is_high_traffic_mode false) ;;
        send_commands Red Green false
      else
        hs <- gets high_traffic_start_time ;;
        elapsed <- elapsed_since current_time hs ;;
        if Qle_bool HIGH_TRAFFIC_TIMER elapsed
        then alternate_direction current_time
        else pass
    else if (car_count =? 0)%Z then
      a <- gets light_a ;;
      match a with
      | Green =>
          send_commands Yellow Red false ;;
          assign (with_is_yellow_transition true) ;;
          assign (with_yellow_start_time (Some current_time))
      | Red =>
          b <- gets light_b ;;
          if negb (light_eqb b Green) then send_commands Red Green false else pass
      | Yellow => pass
      end
    else if (1 <=? car_count)%Z then
      a <- gets light_a ;;
      match a with
      | Red =>
          b <- gets light_b ;;
          if light_eqb b Green then
            send_commands Red Yellow false ;;
            assign (with_is_yellow_transition true) ;;
            assign (with_yellow_start_time (Some current_time))
          else send_commands Green Red false
      | Green =>
          b <- gets light_b ;;
          if negb (light_eqb b Red) then send_commands Green Red false else pass
      | Yellow => pass
      end
    else pass.

(** The handler of key ['r'] in [run]. *)
Definition reset : M unit :=
  assign (with_light_a Red) ;;
  assign (with_light_b Green) ;;
  assign (with_is_yellow_transition false) ;;
  assign (with_is_high_traffic_mode false) ;;
  assign (with_high_traffic_direction DirB) ;;
  send_commands Red Green false.

(* ================================================================== *)
(** ** Detection stabiliser: [get_confirmed_car_count] *)

(** Python's [sum]. *)
Definition sum (l : list Z) : Z := fold_left Z.add l 0%Z.

(** [round(s / n)] for integers [s] and [n > 0]: the quotient is a float and
    [round] rounds it to the nearest integer, ties to the even one.  The
    float quotient is the correctly rounded value of the exact one; a tie
    [k + 1/2] is a float itself and rounding to a float is monotone, so for
    the magnitudes of car counts the result is the exact quotient rounded
    half to even, which integer arithmetic computes. *)
Definition round_div (s n : Z) : Z :=
  let q := (s / n)%Z in
  let r := (s mod n)%Z in
  if (2 * r <? n)%Z then q
  else if (n <? 2 * r)%Z then (q + 1)%Z
  else if Z.even q then q else (q + 1)%Z.

(** [round(sum(h) / len(h))] *)
Definition smoothed (h : list Z) : Z := round_div (sum h) (Z.of_nat (List.length h)).

(** The [if]/[elif] chain that sets [state_changed] and [new_state]. *)
Definition classify (smoothed_count confirmed : Z) : bool * Z :=
  if (HIGH_TRAFFIC_THRESHOLD <=? smoothed_count)%Z then (true, smoothed_count)
  else if (confirmed =? 0)%Z && (1 <=? smoothed_count)%Z then (true, smoothed_count)
  else if (1 <=? confirmed)%Z && (smoothed_count =? 0)%Z then (true, 0%Z)
  else if (0 <? Z.abs (smoothed_count - confirmed))%Z then (true, smoothed_count)
  else (false, confirmed).

(** [required_time] for a pending candidate. *)
Definition required_time (new_state : Z) : Q :=
  if (HIGH_TRAFFIC_THRESHOLD <=? new_state)%Z
  then HIGH_TRAFFIC_CONFIRMATION_TIME
  else DETECTION_CONFIRMATION_TIME.

Definition get_confirmed_car_count (current_count : Z) : M Z :=
  current_time <- ask clock ;;
  h <- gets detection_history ;;
  assign (with_detection_history (h ++ [current_count])) ;;
  h <- gets detection_history ;;
  (if (DETECTION_HISTORY_SIZE <? List.length h)%nat
   then assign (with_detection_history (tl h))
   else pass) ;;
  h <- gets detection_history ;;
  let smoothed_count := smoothed h in
  confirmed <- gets confirmed_car_count ;;
  let '(state_changed, new_state) := classify smoothed_count confirmed in
  (if state_changed then
     pending <- gets pending_car_count ;;
     if negb (new_state =? pending)%Z then
       assign (with_pending_car_count new_state) ;;
       assign (with_last_state_change_time current_time)
     else
       last <- gets last_state_change_time ;;
       let time_elapsed := (current_time - last)%Q in
       if Qle_bool (required_time new_state) time_elapsed then
         assign (with_confirmed_car_count new_state) ;;
         c <- gets confirmed_car_count ;;
         assign (with_pending_car_count c)
       else pass
   else
     c <- gets confirmed_car_count ;;
     assign (with_pending_car_count c)) ;;
  gets confirmed_car_count.

(* ================================================================== *)
(** ** The main loop of [run] *)

(** One iteration that reaches the engine: the raw count is stabilised, the
    confirmed count drives the lights, then key ['r'] (if pressed) resets.
    Each of the three calls has its own environment. *)
Definition frame (raw_car_count : Z) (e_count e_lights : Env) (key_r : option Env)
  : DualTrafficLightAI -> Res unit :=
  fun s =>
    let r1 := get_confirmed_car_count raw_car_count e_count s in
    match result r1 with
    | Raise x => mkRes (Raise x) (self_of r1) (tx r1)
    | Return car_count =>
        let r2 := update_traffic_lights car_count e_lights (self_of r1) in
        match result r2, key_r with
        | Return _, Some e_key =>
            let r3 := reset e_key (self_of r2) in
            mkRes (result r3) (self_of r3) (tx r1 ++ tx r2 ++ tx r3)
        | _, _ => mkRes (result r2) (self_of r2) (tx r1 ++ tx r2)
        end
    end.

(** The command sent by [run] before the loop. *)
Definition startup : M unit := send_commands Red Green false.

(* ================================================================== *)
(** ** Runs of the controller *)

(** The calls that [run] makes on the object.  [CallUpdate] carries any
    count: the count [run] passes is the one the stabiliser returned, see
    [frame]. *)
Inductive Call : Set :=
  | CallStartup
  | CallObserve (raw_car_count : Z)
  | CallUpdate (car_count : Z)
  | CallReset.

Definition call_method (c : Call) : M unit :=
  match c with
  | CallStartup => startup
  | CallObserve raw => get_confirmed_car_count raw ;; pass
  | CallUpdate car_count => update_traffic_lights car_count
  | CallReset => reset
  end.

(** [reaches log s]: some sequence of calls, each in an environment of its
    own, takes the freshly constructed object to [s] and hands [log] to the
    serial port. *)
Inductive reaches : list bytes -> DualTrafficLightAI -> Prop :=
  | reaches_init : forall t, reaches [] (init t)
  | reaches_call : forall log s c e,
      reaches log s ->
      reaches (log ++ tx (call_method c e s)) (self_of (call_method c e s)).

(** Frames without key presses, one after the other; [samples] gives the
    raw count of each frame with the environments of its two calls.  The
    loop ends at the first exception. *)
Fixpoint frames (samples : list (Z * Env * Env)) (s : DualTrafficLightAI) : Res unit :=
  match samples with
  | [] => mkRes (Return tt) s []
  | (raw, e_count, e_lights) :: rest =>
      let r := frame raw e_count e_lights None s in
      match result r with
      | Return _ =>
          let r' := frames rest (self_of r) in
          mkRes (result r') (self_of r') (tx r ++ tx r')
      | Raise x => r
      end
  end.

(** The stabiliser alone on a stream of timed samples: the counts it
    returns, in order, and the object it leaves. *)
Fixpoint observe_all (samples : list (Z * Q)) (s : DualTrafficLightAI)
  : list Z * DualTrafficLightAI :=
  match samples with
  | [] => ([], s)
  | (raw, t) :: rest =>
      let r := get_confirmed_car_count raw (mkEnv t t true) s in
      let '(counts, s') := observe_all rest (self_of r) in
      (confirmed_car_count (self_of r) :: counts, s')
  end.

(** An environment whose clock reads [t] throughout the call. *)
Definition at_time (t : Q) (ok : bool) : Env := mkEnv t t ok.

(* ================================================================== *)
(** ** Vocabulary of the properties *)

(** The four light pairs the engine ever asks for. *)
Definition legal_pairs : list (Light * Light) :=
  [(Red, Green); (Green, Red); (Yellow, Red); (Red, Yellow)].

Definition safe_pair (p : Light * Light) : bool :=
  match p with
  | (Red, Green) | (Green, Red) | (Yellow, Red) | (Red, Yellow) => true
  | _ => false
  end.

Definition pair_eqb (p q : Light * Light) : bool :=
  light_eqb (fst p) (fst q) && light_eqb (snd p) (snd q).

(** The pair that gives green to direction [d]. *)
Definition green_for (d : Direction) : Light * Light :=
  match d with
  | DirA => (Green, Red)
  | DirB => (Red, Green)
  end.

Definition is_color_byte (b : byte) : bool :=
  match b with
  | x52 | x59 | x47 => true   (* R, Y, G *)
  | _ => false
  end.

(** Recogniser of the wire format [A<c1>B<c2>[H]]. *)
Definition is_token (b : bytes) : bool :=
  match b with
  | [x41; c1; x42; c2] => is_color_byte c1 && is_color_byte c2
  | [x41; c1; x42; c2; x48] => is_color_byte c1 && is_color_byte c2
  | _ => false
  end.

(** [out] was written before the computation that gave [r] ran. *)
Definition after {A} (out : list bytes) (r : Res A) : Res A :=
  mkRes (result r) (self_of r) (out ++ tx r).

(** A call [r] made on [s] in [e] asked the emitter for [desired] with
    [alert]: the emitter stays silent when nothing differs, else it writes
    the one token; the object records the pair when the write went
    through. *)
Definition commits (s : DualTrafficLightAI) (e : Env) (r : Res unit)
    (desired : Light * Light) (alert : bool) : Prop :=
  tx r = (if pair_eqb (lights s) desired && negb alert
          then []
          else [encode (command (fst desired) (snd desired) alert)]) /\
  lights (self_of r) = (if link_ok e then desired else lights s).

(** The stabiliser has settled on [c]: a full window of [c], confirmed and
    no other candidate pending. *)
Definition settled_on (c : Z) (s : DualTrafficLightAI) : Prop :=
  detection_history s = repeat c DETECTION_HISTORY_SIZE /\
  confirmed_car_count s = c /\
  pending_car_count s = c.

(** Appending one sample to the bounded history. *)
Definition push_sample (h : list Z) (x : Z) : list Z :=
  if (DETECTION_HISTORY_SIZE <? List.length (h ++ [x]))%nat
  then tl (h ++ [x])
  else h ++ [x].

(** What [send_commands] records on a delivered write. *)
Definition sent (la lb : Light) (e : Env) (s : DualTrafficLightAI) : DualTrafficLightAI :=
  with_last_command_time (clock_at_send e) (with_light_b lb (with_light_a la s)).

(* ================================================================== *)
(** ** Sample runs *)

(** One to seven cars confirmed at start: B goes to yellow ... *)
Definition ex_yellow_b : DualTrafficLightAI :=
  self_of (call_method (CallUpdate 3) (at_time 0 true) (init 0)).

(** ... two seconds later A gets green ... *)
Definition ex_green_a : DualTrafficLightAI :=
  self_of (call_method (CallUpdate 3) (at_time 2 true) ex_yellow_b).

(** ... and when the cars are gone A goes to yellow. *)
Definition ex_yellow_a : DualTrafficLightAI :=
  self_of (call_method (CallUpdate 0) (at_time 3 true) ex_green_a).

(** What one call hands to the port. *)
Inductive Emission : Set :=
  | Silent
  | Token (la lb : Light) (alert : bool)
  | BareAlert.

Definition emission_bytes (em : Emission) : list bytes :=
  match em with
  | Silent => []
  | Token la lb alert => [encode (command la lb alert)]
  | BareAlert => [bare_alert]
  end.

(* ================================================================== *)
(** ** The yellow clearance as the specification words it *)

(** The outcome the specification has recorded when a clearance begins
    (section 3, [OperatingMode]). *)
Inductive PostYellowOutcome : Set :=
  | CrossGreen
  | AiGreen
  | HighTrafficDirection (d : Direction).

Definition opposite (d : Direction) : Direction :=
  match d with
  | DirA => DirB
  | DirB => DirA
  end.

(** The target column of the transition table of section 4.3, for the
    tick (state [s], count [car_count]) that begins the clearance. *)
Definition spec_target (s : DualTrafficLightAI) (car_count : Z) : PostYellowOutcome :=
  if is_high_traffic_mode s
  then HighTrafficDirection (opposite (high_traffic_direction s))
  else if (HIGH_TRAFFIC_THRESHOLD <=? car_count)%Z then HighTrafficDirection DirB
  else if (car_count =? 0)%Z then CrossGreen
  else AiGreen.

(** The lights each outcome stands for. *)
Definition spec_target_lights (t : PostYellowOutcome) : Light * Light :=
  match t with
  | CrossGreen => (Red, Green)
  | AiGreen => (Green, Red)
  | HighTrafficDirection d => green_for d
  end.

(** The specification's reading of a completed clearance: the lights
    committed are those of the target recorded at its beginning, whatever
    the count is at completion. *)
Definition commits_recorded_target : Prop :=
  forall log s0 c0 e0 c1 e1 t0,
    reaches log s0 ->
    is_yellow_transition s0 = false ->
    link_ok e0 = true ->
    link_ok e1 = true ->
    let s1 := self_of (update_traffic_lights c0 e0 s0) in
    is_yellow_transition s1 = true ->
    yellow_start_time s1 = Some t0 ->
    (YELLOW_DURATION <= clock e1 - t0)%Q ->
    lights (self_of (update_traffic_lights c1 e1 s1)) =
    spec_target_lights (spec_target s0 c0).

(* ================================================================== *)
(** ** A single outlier in a constant stream *)

(** The window holds the outlier [v], followed by [k] samples of the
    constant [c] and preceded by [c] only; the confirmed count is still
    [c], and the candidate is either none or the smoothed value of such a
    window, timed from the outlier's instant [t0]. *)
Definition outlier_in_window (c v : Z) (t0 : Q) (k : nat) (s : DualTrafficLightAI) : Prop :=
  detection_history s = repeat c (9 - k) ++ v :: repeat c k /\
  confirmed_car_count s = c /\
  ((smoothed (repeat c 9 ++ [v]) = c /\ pending_car_count s = c) \/
   (smoothed (repeat c 9 ++ [v]) <> c /\
    pending_car_count s = smoothed (repeat c 9 ++ [v]) /\
    last_state_change_time s = t0)).

(** The outlier has left the window. *)
Definition outlier_gone (c : Z) (s : DualTrafficLightAI) : Prop :=
  detection_history s = repeat c DETECTION_HISTORY_SIZE /\
  confirmed_car_count s = c.

(** The specification's debounce property: from a stabiliser settled on
    [c], one sample [v] at [t0] followed by samples of [c] at any instants
    [ts] never moves the confirmed count. *)
Definition single_outlier_never_confirmed : Prop :=
  forall s c v t0 ts,
    settled_on c s ->
    Forall (fun n => n = c)
      (fst (observe_all ((v, t0) :: map (fun t => (c, t)) ts) s)).

(** Ten frames without cars, one second apart. *)
Definition ten_empty_frames : list (Z * Q) :=
  map (fun t => (0%Z, inject_Z t)) [0; 1; 2; 3; 4; 5; 6; 7; 8; 9]%Z.

Definition ex_settled_empty : DualTrafficLightAI :=
  snd (observe_all ten_empty_frames (init 0)).


(** Ten frames with two cars within one second: the candidate 2 is pending
    since [t = 0], not yet confirmed. *)
Definition ten_frames_two_cars : list (Z * Q) :=
  map (fun t => (2%Z, t)) [0; 1#10; 2#10; 3#10; 4#10; 5#10; 6#10; 7#10; 8#10; 9#10].

Definition ex_pending_two : DualTrafficLightAI :=
  snd (observe_all ten_frames_two_cars (init 0)).

(* ================================================================== *)
(** ** Congestion that clears while A is green *)

Definition sample (raw : Z) (t : Q) : Z * Env * Env :=
  (raw, at_time t true, at_time t true).

(** Eight cars for 33.5 s (high-traffic mode, one alternation to A), then
    an empty road, ten frames in one second. *)
Definition congestion_then_clear : list (Z * Env * Env) :=
  [sample 8 0; sample 8 (3#2); sample 8 (63#2); sample 8 (67#2);
   sample 0 (340#10); sample 0 (341#10); sample 0 (342#10); sample 0 (343#10);
   sample 0 (344#10); sample 0 (345#10); sample 0 (346#10); sample 0 (347#10);
   sample 0 (348#10); sample 0 (349#10)].

Definition ex_congested_green_a : Res unit :=
  frames congestion_then_clear (self_of (startup (at_time 0 true) (init 0))).

(** A timer is set whenever its flag is. *)
Definition timers_set (s : DualTrafficLightAI) : Prop :=
  (is_yellow_transition s = true -> yellow_start_time s <> None) /\
  (is_high_traffic_mode s = true -> high_traffic_start_time s <> None).

(* ================================================================== *)
(** ** Counting cars: [count_cars] *)

(** One row of the detector's output [results.xyxy[0]]: the entries before
    the last one, and the last one, [det[-1]], which is the class number. *)
Record Detection : Type := mkDetection {
  leading : list Q;
  class_number : Q
}.

(** [int(x)] on a number: truncation toward zero. *)
Definition py_int (x : Q) : Z := Z.quot (Qnum x) (Zpos (Qden x)).

(** [sum(1 for det in detections if int(det[-1]) == 0)] *)
Definition count_cars (detections : list Detection) : Z :=
  sum (map (fun _ => 1%Z)
         (filter (fun det => (py_int (class_number det) =? 0)%Z) detections)).

(* ================================================================== *)
(** ** Frame rate: [calculate_fps] *)

(** The three fields [calculate_fps] reads and writes; no other method
    assigns them after [__init__]. *)
Record FpsFields : Type := mkFps {
  fps_counter : Z;
  fps_start_time : Q;
  current_fps : Z
}.

Definition calculate_fps (current_time : Q) (f : FpsFields) : FpsFields :=
  let counter := (fps_counter f + 1)%Z in
  if Qle_bool 1 (current_time - fps_start_time f)
  then mkFps 0 current_time counter
  else mkFps counter (fps_start_time f) (current_fps f).

(** [calculate_fps] once per clock reading; the first component lists the
    rates it publishes, in order. *)
Fixpoint calculate_fps_all (readings : list Q) (f : FpsFields) : list Z * FpsFields :=
  match readings with
  | [] => ([], f)
  | t :: rest =>
      let f' := calculate_fps t f in
      let '(published, f'') := calculate_fps_all rest f' in
      ((if Qle_bool 1 (t - fps_start_time f) then [current_fps f'] else [])
         ++ published, f'')
  end.

(* ================================================================== *)
(** ** Dataset collection: [save_training_frame] *)

Definition ENABLE_TRAINING_DATA : bool := false.

(** The fields of the dataset collection. *)
Record TrainingFields : Type := mkTraining {
  last_save_time : Q;
  dataset_path : string
}.

(** What one call takes from outside: the module switch (shipped as
    [ENABLE_TRAINING_DATA]), the clock, and the text that
    [datetime.now().strftime] returns. *)
Record SaveEnv : Type := mkSaveEnv {
  enabled : bool;
  save_clock : Q;
  timestamp : string
}.

(** An integer in an f-string. *)
Definition decimal (n : Z) : string := NilZero.string_of_int (Z.to_int n).

(** The result is the object's fields and the file names handed to
    [cv2.imwrite]. *)
Definition save_training_frame (car_count : Z) (e : SaveEnv) (f : TrainingFields)
  : TrainingFields * list string :=
  if negb (enabled e) then (f, [])
  else
    let current_time := save_clock e in
    if (0 <? car_count)%Z then
      if Qle_bool 2 (current_time - last_save_time f) then
        (mkTraining current_time (dataset_path f),
         [(dataset_path f ++ "/cars/" ++ timestamp e ++ "_cars_"
             ++ decimal car_count ++ ".jpg")%string])
      else (f, [])
    else
      if Qle_bool 10 (current_time - last_save_time f) then
        (mkTraining current_time (dataset_path f),
         [(dataset_path f ++ "/empty/" ++ timestamp e ++ "_empty.jpg")%string])
      else (f, []).

(** [save_training_frame] once per frame; the saves are listed with the
    clock reading of their call. *)
Fixpoint save_training_frames (calls : list (Z * SaveEnv)) (f : TrainingFields)
  : list (Q * string) * TrainingFields :=
  match calls with
  | [] => ([], f)
  | (car_count, e) :: rest =>
      let '(f', files) := save_training_frame car_count e f in
      let '(saved, f'') := save_training_frames rest f' in
      (map (fun name => (save_clock e, name)) files ++ saved, f'')
  end.

(** Successive readings are at least [gap] apart. *)
Fixpoint spaced (gap : Q) (readings : list Q) : Prop :=
  match readings with
  | t1 :: ((t2 :: _) as rest) => (gap <= t2 - t1)%Q /\ spaced gap rest
  | _ => True
  end.

(* ================================================================== *)
(** ** The loop of [run], keys included *)

(** What one turn of the loop takes from outside: whether [cap.read()]
    gave a frame, the detections of the model, the environments of the
    engine's calls, and the value of [cv2.waitKey(1)]. *)
Record Iteration : Type := mkIteration {
  grabbed : bool;
  detections : list Detection;
  e_count : Env;
  e_lights : Env;
  key_code : Z;
  e_key : Env
}.

(** How the loop ended on the turns it was given. *)
Inductive LoopExit : Set :=
  | GrabFailed
  | QuitRequested
  | Escaped (x : Exn)
  | StillRunning.

(** [ord(c)] *)
Definition ord (c : ascii) : Z := Z.of_N (N_of_ascii c).

Fixpoint run_loop (turns : list Iteration) (s : DualTrafficLightAI)
  : LoopExit * DualTrafficLightAI * list bytes :=
  match turns with
  | [] => (StillRunning, s, [])
  | it :: rest =>
      if negb (grabbed it) then (GrabFailed, s, [])
      else
        let raw_car_count := count_cars (detections it) in
        let r1 := get_confirmed_car_count raw_car_count (e_count it) s in
        match result r1 with
        | Raise x => (Escaped x, self_of r1, tx r1)
        | Return car_count =>
            let r2 := update_traffic_lights car_count (e_lights it) (self_of r1) in
            match result r2 with
            | Raise x => (Escaped x, self_of r2, tx r1 ++ tx r2)
            | Return _ =>
                let key := Z.land (key_code it) 255 in
                if (key =? ord "q")%Z
                then (QuitRequested, self_of r2, tx r1 ++ tx r2)
                else
                  let r3 := if (key =? ord "r")%Z
                            then reset (e_key it) (self_of r2)
                            else mkRes (Return tt) (self_of r2) [] in
                  match result r3 with
                  | Raise x => (Escaped x, self_of r3, tx r1 ++ tx r2 ++ tx r3)
                  | Return _ =>
                      let '(exit, s', out) := run_loop rest (self_of r3) in
                      (exit, s', tx r1 ++ tx r2 ++ tx r3 ++ out)
                  end
            end
        end
  end.

(** [run] from the start-up command on, the devices having been set up. *)
Definition run (e_start : Env) (turns : list Iteration) (s : DualTrafficLightAI)
  : LoopExit * DualTrafficLightAI * list bytes :=
  let r0 := startup e_start s in
  match result r0 with
  | Raise x => (Escaped x, self_of r0, tx r0)
  | Return _ =>
      let '(exit, s', out) := run_loop turns (self_of r0) in
      (exit, s', tx r0 ++ out)
  end.

(* ================================================================== *)
(** ** More vocabulary *)

(** The stabiliser's fields hold no negative number. *)
Definition filter_nonneg (s : DualTrafficLightAI) : Prop :=
  Forall (fun x => (0 <= x)%Z) (detection_history s) /\
  (0 <= confirmed_car_count s)%Z /\
  (0 <= pending_car_count s)%Z.

(** The stabiliser's fields of two objects agree. *)
Definition same_filter (s s' : DualTrafficLightAI) : Prop :=
  detection_history s' = detection_history s /\
  confirmed_car_count s' = confirmed_car_count s /\
  pending_car_count s' = pending_car_count s /\
  last_state_change_time s' = last_state_change_time s.

(** The engine in normal mode, no clearance in progress. *)
Definition normal_mode (s : DualTrafficLightAI) : Prop :=
  is_yellow_transition s = false /\ is_high_traffic_mode s = false.

(** A's yellow has completed on a count of 0, but the write of [ARBG] met a
    dead link: the object still records (Yellow, Red). *)
Definition ex_stuck_yellow : DualTrafficLightAI :=
  self_of (call_method (CallUpdate 0) (at_time 5 false) ex_yellow_a).

(** High traffic confirmed right after start. *)
Definition ex_high_traffic_b : DualTrafficLightAI :=
  self_of (call_method (CallUpdate 9) (at_time 0 true) (init 0)).

(** A byte string that sounds the buzzer: a token ending in [H], or the
    bare alert line. *)
Definition carries_alert (b : bytes) : bool :=
  match b with
  | [x41; _; x42; _; x48] => true
  | [x48; x0a] => true
  | _ => false
  end.

Definition with_key_code (k : Z) (it : Iteration) : Iteration :=
  mkIteration (grabbed it) (detections it) (e_count it) (e_lights it) k (e_key it).

(** A turn at time [t] with a frame, the given detections and key code,
    over a working link. *)
Definition turn_at (t : Q) (dets : list Detection) (k : Z) : Iteration :=
  mkIteration true dets (at_time t true) (at_time t true) k (at_time t true).

(** The road is empty, cross traffic has the green, nothing is pending. *)
Definition empty_road (s : DualTrafficLightAI) : Prop :=
  Forall (fun x => x = 0%Z) (detection_history s) /\
  confirmed_car_count s = 0%Z /\
  normal_mode s /\
  lights s = (Red, Green).

(* ================================================================== *)
(** ** The stabiliser on a sample that is not a finite number *)

(** A value a caller can pass for [current_count]: an integer, or one of
    the floats [inf], [-inf], [nan]. *)
Inductive Sample : Set :=
  | Finite (n : Z)
  | PosInf
  | NegInf
  | NaN.

Definition non_finite (x : Sample) : Prop :=
  match x with
  | Finite _ => False
  | _ => True
  end.

(** [a + b] as [sum] computes it: integers add exactly, an infinity
    absorbs every finite number, opposite infinities and [nan] give
    [nan]. *)
Definition sample_add (a b : Sample) : Sample :=
  match a, b with
  | NaN, _ | _, NaN => NaN
  | PosInf, NegInf | NegInf, PosInf => NaN
  | PosInf, _ | _, PosInf => PosInf
  | NegInf, _ | _, NegInf => NegInf
  | Finite x, Finite y => Finite (x + y)
  end.






(* ================================================================== *)
(** * Properties *)

(** ** Equations of the method monad *)

Lemma after_nil {A} (r : Res A) : after [] r = r.
Proof. destruct r; reflexivity. Qed.

Section MonadEquations.
Context {A B : Type}.
Variables (e : Env) (s : DualTrafficLightAI).

Lemma bind_ret (a : A) (k : A -> M B) : bind (ret a) k e s = k a e s.
Proof. unfold bind, ret; cbn. apply after_nil. Qed.

Lemma bind_gets (f : DualTrafficLightAI -> A) (k : A -> M B) :
  bind (gets f) k e s = k (f s) e s.
Proof. unfold bind, gets; cbn. apply after_nil. Qed.

Lemma bind_ask (f : Env -> A) (k : A -> M B) :
  bind (ask f) k e s = k (f e) e s.
Proof. unfold bind, ask; cbn. apply after_nil. Qed.

Lemma bind_assign (f : DualTrafficLightAI -> DualTrafficLightAI) (k : unit -> M B) :
  bind (assign f) k e s = k tt e (f s).
Proof. unfold bind, assign; cbn. apply after_nil. Qed.

Lemma bind_raise (x : Exn) (k : A -> M B) :
  bind (raise x) k e s = mkRes (Raise x) s [].
Proof. reflexivity. Qed.

Lemma bind_arduino_write (b : bytes) (k : unit -> M B) :
  bind (arduino_write b) k e s =
  if link_ok e then after [b] (k tt e s) else mkRes (Raise SerialException) s [b].
Proof. unfold bind, arduino_write; cbn. destruct (link_ok e); reflexivity. Qed.
End MonadEquations.

Lemma bind_bind {A B C} (m : M A) (f : A -> M B) (g : B -> M C) e s :
  bind (bind m f) g e s = bind m (fun a => bind (f a) g) e s.
Proof.
  unfold bind. destruct (m e s) as [[a|x] s1 o1]; cbn; [|reflexivity].
  destruct (f a e s1) as [[b|x] s2 o2]; cbn; [|reflexivity].
  rewrite app_assoc. reflexivity.
Qed.

(** ** The emitter in closed form *)

Lemma send_commands_eq la lb alert e s :
  send_commands la lb alert e s =
  if light_eqb (light_a s) la && light_eqb (light_b s) lb && negb alert
  then mkRes (Return tt) s []
  else mkRes (Return tt) (if link_ok e then sent la lb e s else s)
         [encode (command la lb alert)].
Proof.
  unfold send_commands, try_except.
  rewrite !bind_gets.
  destruct (light_eqb (light_a s) la && light_eqb (light_b s) lb && negb alert);
    [reflexivity|].
  rewrite bind_arduino_write.
  destruct (link_ok e); [|reflexivity].
  rewrite !bind_assign, bind_ask. reflexivity.
Qed.

Lemma bind_send_commands {B} la lb alert (k : unit -> M B) e s :
  bind (send_commands la lb alert) k e s =
  if light_eqb (light_a s) la && light_eqb (light_b s) lb && negb alert
  then k tt e s
  else after [encode (command la lb alert)]
         (k tt e (if link_ok e then sent la lb e s else s)).
Proof.
  unfold bind at 1. rewrite send_commands_eq.
  destruct (light_eqb (light_a s) la && light_eqb (light_b s) lb && negb alert); cbn.
  - apply after_nil.
  - reflexivity.
Qed.

Lemma bind_send_commands_alert {B} la lb (k : unit -> M B) e s :
  bind (send_commands la lb true) k e s =
  after [encode (command la lb true)]
    (k tt e (if link_ok e then sent la lb e s else s)).
Proof.
  rewrite bind_send_commands. cbn [negb]. rewrite andb_false_r. reflexivity.
Qed.

Lemma bind_send_commands_quiet {B} la lb (k : unit -> M B) e s :
  bind (send_commands la lb false) k e s =
  if pair_eqb (lights s) (la, lb)
  then k tt e s
  else after [encode (command la lb false)]
         (k tt e (if link_ok e then sent la lb e s else s)).
Proof.
  rewrite bind_send_commands. cbn [negb]. rewrite andb_true_r. reflexivity.
Qed.

Lemma send_commands_alert_eq la lb e s :
  send_commands la lb true e s =
  mkRes (Return tt) (if link_ok e then sent la lb e s else s)
    [encode (command la lb true)].
Proof.
  rewrite send_commands_eq. cbn [negb]. rewrite andb_false_r. reflexivity.
Qed.

Lemma send_commands_quiet_eq la lb e s :
  send_commands la lb false e s =
  if pair_eqb (lights s) (la, lb)
  then mkRes (Return tt) s []
  else mkRes (Return tt) (if link_ok e then sent la lb e s else s)
         [encode (command la lb false)].
Proof.
  rewrite send_commands_eq. cbn [negb]. rewrite andb_true_r. reflexivity.
Qed.

Lemma light_eqb_eq x y : light_eqb x y = true <-> x = y.
Proof. destruct x, y; cbn; split; congruence. Qed.

Lemma light_eqb_neq x y : light_eqb x y = false -> x <> y.
Proof. destruct x, y; cbn; congruence. Qed.

Lemma light_eqb_refl x : light_eqb x x = true.
Proof. destruct x; reflexivity. Qed.

Lemma pair_eqb_eq p q : pair_eqb p q = true <-> p = q.
Proof.
  destruct p as [[] []], q as [[] []]; cbn; split; congruence.
Qed.

(** ** Symbolic execution of a method body *)

Ltac fields :=
  cbn [light_a light_b yellow_start_time high_traffic_start_time
       is_yellow_transition is_high_traffic_mode high_traffic_direction
       last_command_time detection_history confirmed_car_count
       last_state_change_time pending_car_count
       with_light_a with_light_b with_yellow_start_time
       with_high_traffic_start_time with_is_yellow_transition
       with_is_high_traffic_mode with_high_traffic_direction
       with_last_command_time with_detection_history
       with_confirmed_car_count with_last_state_change_time
       with_pending_car_count sent lights result self_of tx after app
       negb light_eqb fst snd] in *.

Ltac exec_rewrite :=
  first
    [ rewrite bind_bind
    | rewrite bind_gets
    | rewrite bind_ask
    | rewrite bind_assign
    | rewrite bind_ret
    | rewrite bind_raise
    | rewrite bind_send_commands_alert
    | rewrite bind_send_commands_quiet
    | rewrite bind_arduino_write
    | rewrite send_commands_alert_eq
    | rewrite send_commands_quiet_eq
    | progress unfold pass, elapsed_since
    | progress change (@ret ?A ?a ?e ?s) with (mkRes (Return a) s [])
    | progress change (@raise ?A ?x ?e ?s) with (@mkRes A (Raise x) s [])
    | progress change (assign ?f ?e ?s) with (mkRes (Return tt) (f s) [])
    | progress change (@gets ?A ?f ?e ?s) with (mkRes (Return (f s)) s []) ].

Ltac exec_branch :=
  match goal with
  | |- context [if negb (light_eqb ?x ?y) then _ else _] =>
      let E := fresh "Elight" in
      destruct (light_eqb x y) eqn:E;
      [apply light_eqb_eq in E | apply light_eqb_neq in E]
  | |- context [if negb ?b then _ else _] => destruct b eqn:?
  | |- context [if pair_eqb ?p ?q then _ else _] =>
      let E := fresh "Epair" in
      destruct (pair_eqb p q) eqn:E; [apply pair_eqb_eq in E|]
  | |- context [if light_eqb ?x ?y then _ else _] =>
      let E := fresh "Elight" in
      destruct (light_eqb x y) eqn:E;
      [apply light_eqb_eq in E | apply light_eqb_neq in E]
  | |- context [if ?b then _ else _] => destruct b eqn:?
  | |- context [match ?x with _ => _ end] => destruct x eqn:?
  end.

(** Run the body to its leaves, splitting at every test. *)
Ltac exec := repeat (first [exec_rewrite | exec_branch]; fields).

(** Run the straight-line part only. *)
Ltac exec_line := repeat (exec_rewrite; fields).

(** The reset handler never reaches the port: the lights are assigned
    first, so the emitter finds nothing to send. *)
Lemma reset_eq e s :
  reset e s =
  mkRes (Return tt)
    (with_high_traffic_direction DirB
       (with_is_high_traffic_mode false
          (with_is_yellow_transition false
             (with_light_b Green (with_light_a Red s))))) [].
Proof. unfold reset. exec_line. reflexivity. Qed.

Lemma startup_eq e s :
  startup e s =
  if pair_eqb (lights s) (Red, Green)
  then mkRes (Return tt) s []
  else mkRes (Return tt) (if link_ok e then sent Red Green e s else s)
         [encode (command Red Green false)].
Proof.
  unfold startup. apply send_commands_quiet_eq.
Qed.

Lemma safe_pair_legal p : safe_pair p = true <-> In p legal_pairs.
Proof.
  destruct p as [[] []]; cbn; split; intros H; try discriminate; auto 6;
    repeat (destruct H as [H|H]; try discriminate); try contradiction.
Qed.

(** ** One call and the light pair *)

Lemma send_commands_lights la lb alert e s :
  lights (self_of (send_commands la lb alert e s)) = lights s \/
  lights (self_of (send_commands la lb alert e s)) = (la, lb).
Proof.
  rewrite send_commands_eq.
  destruct (light_eqb (light_a s) la && light_eqb (light_b s) lb && negb alert);
    [left; reflexivity|].
  destruct (link_ok e); [right|left]; reflexivity.
Qed.

Lemma update_lights c e s :
  lights (self_of (update_traffic_lights c e s)) = lights s \/
  safe_pair (lights (self_of (update_traffic_lights c e s))) = true.
Proof.
  unfold update_traffic_lights, complete_yellow, alternate_direction.
  exec; solve [left; reflexivity | right; reflexivity | left; congruence].
Qed.

Lemma observe_lights raw e s :
  lights (self_of (get_confirmed_car_count raw e s)) = lights s.
Proof.
  unfold get_confirmed_car_count.
  exec; reflexivity.
Qed.

Lemma call_lights c e s :
  lights (self_of (call_method c e s)) = lights s \/
  safe_pair (lights (self_of (call_method c e s))) = true.
Proof.
  destruct c as [|raw|n|]; cbn [call_method].
  - unfold startup.
    destruct (send_commands_lights Red Green false e s) as [H|H]; rewrite H; auto.
  - left. unfold bind, pass, ret.
    pose proof (observe_lights raw e s) as H.
    destruct (get_confirmed_car_count raw e s) as [[a|x] s1 o1]; cbn in *; exact H.
  - apply update_lights.
  - right. rewrite reset_eq. reflexivity.
Qed.

(** The invariant behind the safety claims: the recorded pair is always
    one of the four pairs the engine asks for. *)
Lemma reaches_safe_pair log s : reaches log s -> safe_pair (lights s) = true.
Proof.
  induction 1 as [t | log s c e _ IH].
  - reflexivity.
  - destruct (call_lights c e s) as [H|H]; [rewrite H; exact IH | exact H].
Qed.

Lemma reaches_ex_yellow_b :
  reaches [encode (command Red Yellow false)] ex_yellow_b.
Proof.
  exact (reaches_call (CallUpdate 3) (at_time 0 true) (reaches_init 0)).
Qed.

Lemma reaches_ex_green_a :
  reaches [encode (command Red Yellow false); encode (command Green Red false)]
    ex_green_a.
Proof.
  exact (reaches_call (CallUpdate 3) (at_time 2 true) reaches_ex_yellow_b).
Qed.

Lemma reaches_ex_yellow_a :
  reaches [encode (command Red Yellow false); encode (command Green Red false);
           encode (command Yellow Red false)]
    ex_yellow_a.
Proof.
  exact (reaches_call (CallUpdate 0) (at_time 3 true) reaches_ex_green_a).
Qed.

Lemma legal_pairs_reachable p :
  In p legal_pairs -> exists log s, reaches log s /\ lights s = p.
Proof.
  intros [H|[H|[H|[H|[]]]]]; subst p.
  - exists [], (init 0). split; [constructor | reflexivity].
  - eexists _, ex_green_a. split; [apply reaches_ex_green_a | reflexivity].
  - eexists _, ex_yellow_a. split; [apply reaches_ex_yellow_a | reflexivity].
  - eexists _, ex_yellow_b. split; [apply reaches_ex_yellow_b | reflexivity].
Qed.

(* ================================================================== *)
(** ** The command emitter *)

(** The emitter touches the port exactly when the pair differs from the
    recorded one or an alert is asked for. *)
Lemma send_commands_writes la lb alert e s :
  tx (send_commands la lb alert e s) =
  if pair_eqb (lights s) (la, lb) && negb alert
  then []
  else [encode (command la lb alert)].
Proof.
  rewrite send_commands_eq. unfold pair_eqb, lights; cbn [fst snd].
  destruct (light_eqb (light_a s) la && light_eqb (light_b s) lb && negb alert);
    reflexivity.
Qed.

(** C7. When the write raises inside [send_commands], the exception is
    swallowed and the object is left as it was, recorded light pair
    included; so if a write was attempted, the next call with the same
    desired pair and alert attempts the very same write again, whatever the
    link does then. *)
Theorem failed_write_keeps_last_sent la lb alert e s :
  link_ok e = false ->
  let r := send_commands la lb alert e s in
  result r = Return tt /\
  self_of r = s /\
  lights (self_of r) = lights s /\
  (tx r <> [] <-> (lights s <> (la, lb) \/ alert = true)) /\
  (tx r <> [] ->
   forall e', tx (send_commands la lb alert e' (self_of r)) = tx r
              /\ tx r = [encode (command la lb alert)]).
Proof.
  intros Hdown r.
  assert (Hs : self_of r = s).
  { unfold r. rewrite send_commands_eq, Hdown.
    destruct (light_eqb (light_a s) la && light_eqb (light_b s) lb && negb alert);
      reflexivity. }
  assert (Hr : result r = Return tt).
  { unfold r. rewrite send_commands_eq.
    destruct (light_eqb (light_a s) la && light_eqb (light_b s) lb && negb alert);
      reflexivity. }
  repeat split; auto.
  - rewrite Hs; reflexivity.
  - unfold r. rewrite send_commands_writes.
    destruct (pair_eqb (lights s) (la, lb)) eqn:Ep; cbn [andb].
    + apply pair_eqb_eq in Ep. destruct alert; cbn; intros H; [now right | congruence].
    + intros _. left. intros E. apply pair_eqb_eq in E. congruence.
  - unfold r. rewrite send_commands_writes.
    destruct (pair_eqb (lights s) (la, lb)) eqn:Ep; cbn [andb].
    + apply pair_eqb_eq in Ep. intros [H|H]; [congruence | subst alert; discriminate].
    + discriminate.
  - rewrite Hs. unfold r. rewrite !send_commands_writes. reflexivity.
  - unfold r in *. rewrite send_commands_writes in *.
    destruct (pair_eqb (lights s) (la, lb) && negb alert); congruence.
Qed.

Lemma failed_write_keeps_last_sent_witness :
  let e := at_time 1 false in
  let r := send_commands Green Red false e (init 0) in
  result r = Return tt /\
  self_of r = init 0 /\
  lights (self_of r) = lights (init 0) /\
  (tx r <> [] <-> (lights (init 0) <> (Green, Red) \/ false = true)) /\
  (tx r <> [] ->
   forall e', tx (send_commands Green Red false e' (self_of r)) = tx r
              /\ tx r = [encode (command Green Red false)]).
Proof.
  exact (@failed_write_keeps_last_sent Green Red false (at_time 1 false) (init 0)
           eq_refl).
Defined.

(** C8. Two calls of [send_commands] in a row with the same desired pair
    and no alert, the first over a working link: the second call performs
    no I/O and changes nothing, whatever the link does; the first writes
    the one token when the pair differs from the recorded one and nothing
    when it does not.  So a pair that differs is written exactly once. *)
Theorem send_commands_twice_one_write la lb e1 e2 s :
  link_ok e1 = true ->
  let r1 := send_commands la lb false e1 s in
  let r2 := send_commands la lb false e2 (self_of r1) in
  tx r2 = [] /\
  self_of r2 = self_of r1 /\
  lights (self_of r1) = (la, lb) /\
  (lights s <> (la, lb) -> tx r1 ++ tx r2 = [encode (command la lb false)]) /\
  (lights s = (la, lb) -> tx r1 ++ tx r2 = []).
Proof.
  intros Hup r1 r2.
  assert (H1 : lights (self_of r1) = (la, lb)).
  { unfold r1. rewrite send_commands_eq, Hup. unfold lights.
    destruct (light_eqb (light_a s) la) eqn:Ea, (light_eqb (light_b s) lb) eqn:Eb;
      cbn; try reflexivity.
    apply light_eqb_eq in Ea, Eb. congruence. }
  assert (H2 : tx r2 = []).
  { unfold r2. rewrite send_commands_writes, H1.
    replace (pair_eqb (la, lb) (la, lb)) with true; [reflexivity|].
    symmetry. apply pair_eqb_eq. reflexivity. }
  assert (H3 : self_of r2 = self_of r1).
  { unfold r2. rewrite send_commands_eq.
    unfold lights in H1. injection H1 as -> ->.
    rewrite !light_eqb_refl. reflexivity. }
  repeat split; auto.
  - intros Hd. rewrite H2, app_nil_r. unfold r1. rewrite send_commands_writes.
    destruct (pair_eqb (lights s) (la, lb)) eqn:Ep; [|reflexivity].
    apply pair_eqb_eq in Ep. contradiction.
  - intros He. rewrite H2, app_nil_r. unfold r1. rewrite send_commands_writes.
    apply pair_eqb_eq in He. rewrite He. reflexivity.
Qed.

Lemma send_commands_twice_one_write_witness :
  let e1 := at_time 1 true in
  let e2 := at_time 2 false in
  let r1 := send_commands Green Red false e1 (init 0) in
  let r2 := send_commands Green Red false e2 (self_of r1) in
  tx r2 = [] /\
  self_of r2 = self_of r1 /\
  lights (self_of r1) = (Green, Red) /\
  (lights (init 0) <> (Green, Red) ->
   tx r1 ++ tx r2 = [encode (command Green Red false)]) /\
  (lights (init 0) = (Green, Red) -> tx r1 ++ tx r2 = []).
Proof.
  exact (@send_commands_twice_one_write Green Red (at_time 1 true) (at_time 2 false)
           (init 0) eq_refl).
Defined.

(* ================================================================== *)
(** ** Reset *)

(** C5 (the code departs from it). Key ['r'] pressed while A is green, after
    the port has received [ARBY] and [AGBR]: the handler returns, the object
    records (Red, Green) in normal mode, and nothing is written to the
    port, whose last command remains [AGBR]. *)
Theorem reset_writes_nothing :
  reaches [encode (command Red Yellow false); encode (command Green Red false)]
    ex_green_a /\
  lights ex_green_a = (Green, Red) /\
  let r := call_method CallReset (at_time 3 true) ex_green_a in
  result r = Return tt /\
  tx r = [] /\
  lights (self_of r) = (Red, Green) /\
  is_yellow_transition (self_of r) = false /\
  is_high_traffic_mode (self_of r) = false.
Proof.
  split; [apply reaches_ex_green_a|].
  split; [reflexivity|].
  cbn [call_method]. rewrite reset_eq. repeat split.
Qed.

(** Nor does it in any other state. *)
Lemma reset_never_writes e s : tx (reset e s) = [].
Proof. rewrite reset_eq. reflexivity. Qed.

(* ================================================================== *)
(** ** The wire *)

Lemma command_is_token la lb alert : is_token (encode (command la lb alert)) = true.
Proof. destruct la, lb, alert; reflexivity. Qed.

Lemma bare_alert_not_token : is_token bare_alert = false.
Proof. reflexivity. Qed.

(** One call of [update_traffic_lights] from any state: what it writes and
    what that means for the lights and for high-traffic mode. *)
Lemma update_emission c e s :
  let r := update_traffic_lights c e s in
  exists em,
    tx r = emission_bytes em /\
    match em with
    | Silent =>
        lights (self_of r) = lights s /\
        (is_high_traffic_mode (self_of r) = true -> is_high_traffic_mode s = true)
    | Token la lb alert =>
        safe_pair (la, lb) = true /\
        lights (self_of r) = (if link_ok e then (la, lb) else lights s) /\
        (if alert
         then is_high_traffic_mode s = false /\ is_high_traffic_mode (self_of r) = true
         else is_high_traffic_mode (self_of r) = true -> is_high_traffic_mode s = true)
    | BareAlert =>
        (HIGH_TRAFFIC_THRESHOLD <= c)%Z /\
        lights s = (Red, Green) /\
        is_yellow_transition s = false /\
        is_high_traffic_mode s = false /\
        lights (self_of r) = lights s
    end.
Proof.
  unfold update_traffic_lights, complete_yellow, alternate_direction.
  exec.
  all: first
      [ exists Silent; cbn [emission_bytes]; split; [reflexivity|];
        solve [repeat split; auto; try congruence]
      | eexists (Token _ _ _); cbn [emission_bytes]; split; [reflexivity|];
        fields; solve [repeat split; auto; try congruence]
      | exists BareAlert; cbn [emission_bytes]; split; [reflexivity|];
        fields; unfold lights;
        solve [repeat split; auto; try congruence; apply Z.leb_le; assumption] ].
Qed.

Lemma observe_frame raw e s :
  let r := get_confirmed_car_count raw e s in
  tx r = [] /\
  lights (self_of r) = lights s /\
  is_high_traffic_mode (self_of r) = is_high_traffic_mode s /\
  is_yellow_transition (self_of r) = is_yellow_transition s /\
  result r = Return (confirmed_car_count (self_of r)).
Proof.
  unfold get_confirmed_car_count. exec; repeat split.
Qed.

(** The same for every call [run] makes. *)
Lemma call_emission c e s :
  let r := call_method c e s in
  exists em,
    tx r = emission_bytes em /\
    match em with
    | Silent =>
        (c <> CallReset -> lights (self_of r) = lights s) /\
        (is_high_traffic_mode (self_of r) = true -> is_high_traffic_mode s = true)
    | Token la lb alert =>
        c <> CallReset /\
        safe_pair (la, lb) = true /\
        lights (self_of r) = (if link_ok e then (la, lb) else lights s) /\
        (if alert
         then is_high_traffic_mode s = false /\ is_high_traffic_mode (self_of r) = true
         else is_high_traffic_mode (self_of r) = true -> is_high_traffic_mode s = true)
    | BareAlert =>
        (exists n, c = CallUpdate n /\ (HIGH_TRAFFIC_THRESHOLD <= n)%Z) /\
        lights s = (Red, Green) /\
        is_yellow_transition s = false /\
        is_high_traffic_mode s = false /\
        lights (self_of r) = lights s
    end.
Proof.
  destruct c as [|raw|n|]; cbn [call_method].
  - rewrite startup_eq.
    destruct (pair_eqb (lights s) (Red, Green)).
    + exists Silent. repeat split; auto.
    + exists (Token Red Green false). cbn [emission_bytes].
      repeat split; try discriminate; destruct (link_ok e); auto.
  - exists Silent.
    pose proof (observe_frame raw e s) as H. unfold bind, pass, ret.
    destruct (get_confirmed_car_count raw e s) as [res s1 o1].
    cbn in H. destruct H as (-> & Hl & Hh & _ & ->). cbn.
    repeat split; auto; congruence.
  - destruct (update_emission n e s) as [[|la lb alert|] [Ht H]];
      [exists Silent | exists (Token la lb alert) | exists BareAlert];
      (split; [exact Ht|]).
    + destruct H; split; auto.
    + destruct H as (Hsafe & Hl & Ha). repeat split; auto; discriminate.
    + destruct H as (Hn & H). split; [exists n; split; [reflexivity | exact Hn] | exact H].
  - exists Silent. rewrite reset_eq. repeat split; cbn; congruence.
Qed.

Lemma emission_bytes_wellformed em :
  Forall (fun b => is_token b = true \/ b = bare_alert) (emission_bytes em).
Proof.
  destruct em as [|la lb alert|]; cbn [emission_bytes].
  - constructor.
  - constructor; [left; apply command_is_token | constructor].
  - constructor; [right; reflexivity | constructor].
Qed.

Lemma reaches_log_wellformed log s :
  reaches log s -> Forall (fun b => is_token b = true \/ b = bare_alert) log.
Proof.
  induction 1 as [t | log s c e _ IH].
  - constructor.
  - apply Forall_app. split; [exact IH|].
    destruct (call_emission c e s) as [em [-> _]].
    apply emission_bytes_wellformed.
Qed.

(** C4 (as amended). Every byte string handed to the port in a run is one
    token [A<c1>B<c2>] or [A<c1>B<c2>H], or the bare alert line [H\n].  A
    call writes at most once; a call other than the reset handler that
    changes the recorded light pair writes exactly the token of the new
    pair; a call that enters high-traffic mode writes exactly one string,
    which carries the alert; and the bare alert is written only by
    [update_traffic_lights] on a count of at least 8, in normal mode, with
    the lights already at (Red, Green). *)
Theorem port_writes_wellformed log s :
  reaches log s ->
  Forall (fun b => is_token b = true \/ b = bare_alert) log /\
  forall c e,
    let r := call_method c e s in
    (List.length (tx r) <= 1)%nat /\
    (c <> CallReset -> lights (self_of r) <> lights s ->
     exists alert,
       tx r = [encode (command (light_a (self_of r)) (light_b (self_of r)) alert)]) /\
    (is_high_traffic_mode s = false -> is_high_traffic_mode (self_of r) = true ->
     tx r = [bare_alert] \/ exists la lb, tx r = [encode (command la lb true)]) /\
    (In bare_alert (tx r) ->
     exists n, c = CallUpdate n /\ (HIGH_TRAFFIC_THRESHOLD <= n)%Z /\
               lights s = (Red, Green) /\
               is_yellow_transition s = false /\
               is_high_traffic_mode s = false).
Proof.
  intros H. split; [exact (reaches_log_wellformed H)|].
  intros c e r.
  destruct (call_emission c e s) as [[|la lb alert|] [Ht Hem]];
    fold r in Ht, Hem; rewrite Ht; cbn [emission_bytes List.length In].
  - destruct Hem as [Hl Hh]. repeat split.
    + lia.
    + intros Hc Hd. elim Hd. auto.
    + intros H0 H1. apply Hh in H1. congruence.
    + intros [].
  - destruct Hem as (Hc & _ & Hl & Ha). repeat split.
    + lia.
    + intros _ Hd. exists alert.
      destruct (link_ok e); [|contradiction].
      rewrite Hl in Hd. unfold lights in Hl. injection Hl as -> ->. reflexivity.
    + intros H0 H1. right. destruct alert; [eauto|]. apply Ha in H1. congruence.
    + intros [E|[]]. pose proof (command_is_token la lb alert) as Htok.
      rewrite E in Htok. discriminate.
  - destruct Hem as ([n [Hc Hn]] & Hl & Hy & Hh & Hl'). repeat split.
    + lia.
    + intros _ Hd. contradiction.
    + intros _ _. now left.
    + intros _. exists n. auto.
Qed.

Lemma port_writes_wellformed_witness :
  let log := [encode (command Red Yellow false); encode (command Green Red false)] in
  Forall (fun b => is_token b = true \/ b = bare_alert) log /\
  forall c e,
    let r := call_method c e ex_green_a in
    (List.length (tx r) <= 1)%nat /\
    (c <> CallReset -> lights (self_of r) <> lights ex_green_a ->
     exists alert,
       tx r = [encode (command (light_a (self_of r)) (light_b (self_of r)) alert)]) /\
    (is_high_traffic_mode ex_green_a = false ->
     is_high_traffic_mode (self_of r) = true ->
     tx r = [bare_alert] \/ exists la lb, tx r = [encode (command la lb true)]) /\
    (In bare_alert (tx r) ->
     exists n, c = CallUpdate n /\ (HIGH_TRAFFIC_THRESHOLD <= n)%Z /\
               lights ex_green_a = (Red, Green) /\
               is_yellow_transition ex_green_a = false /\
               is_high_traffic_mode ex_green_a = false).
Proof.
  apply (@port_writes_wellformed
           [encode (command Red Yellow false); encode (command Green Red false)]
           ex_green_a).
  apply (reaches_call (CallUpdate 3) (at_time 2 true)
           (reaches_call (CallUpdate 3) (at_time 0 true) (reaches_init 0))).
Defined.

(** C4 (as stated, refuted). High traffic confirmed right after start: the
    lights are already (Red, Green), and the one write of the call is the
    alert flag alone. *)
Lemma bare_alert_is_written :
  let r := call_method (CallUpdate 8) (at_time 0 true) (init 0) in
  tx r = [bare_alert] /\
  is_token bare_alert = false /\
  ~ (forall log s, reaches log s -> Forall (fun b => is_token b = true) log).
Proof.
  repeat split.
  intros H.
  specialize (H _ _ (reaches_call (CallUpdate 8) (at_time 0 true) (reaches_init 0))).
  apply Forall_app in H. destruct H as [_ H].
  change (Forall (fun b => is_token b = true) [bare_alert]) in H.
  inversion H as [|? ? Hb _]. discriminate Hb.
Qed.
(* ================================================================== *)
(** ** Safety of the light pair *)

(** Every command that reaches the port asks for one of the four pairs. *)
Lemma reaches_log_safe log s :
  reaches log s ->
  Forall (fun b => b = bare_alert \/
                   exists la lb alert,
                     b = encode (command la lb alert) /\ safe_pair (la, lb) = true)
    log.
Proof.
  induction 1 as [t | log s c e _ IH].
  - constructor.
  - apply Forall_app. split; [exact IH|].
    destruct (call_emission c e s) as [[|la lb alert|] [-> Hem]]; cbn [emission_bytes].
    + constructor.
    + constructor; [|constructor]. right. exists la, lb, alert.
      split; [reflexivity | apply Hem].
    + constructor; [now left | constructor].
Qed.

(** C1. In every state the controller reaches from its initial pair
    (A red, B green) by calls of [send_commands] at start-up,
    [get_confirmed_car_count], [update_traffic_lights] and the reset
    handler, in any order, with any counts, clock readings and link faults,
    the two directions are never both green, and a direction on yellow
    faces red on the other side; the same holds of every pair a command
    written to the port has asked for. *)
Theorem lights_never_conflict log s :
  reaches log s ->
  (~ (light_a s = Green /\ light_b s = Green) /\
   (light_a s = Yellow -> light_b s = Red) /\
   (light_b s = Yellow -> light_a s = Red)) /\
  Forall (fun b => b = bare_alert \/
                   exists la lb alert,
                     b = encode (command la lb alert) /\
                     ~ (la = Green /\ lb = Green) /\
                     (la = Yellow -> lb = Red) /\
                     (lb = Yellow -> la = Red))
    log.
Proof.
  intros H. split.
  2:{ apply reaches_log_safe in H. revert H. apply Forall_impl.
      intros b [Hb|(la & lb & alert & Hb & Hs)]; [now left | right].
      exists la, lb, alert. split; [exact Hb|].
      destruct la, lb; cbn in Hs; try discriminate;
        repeat split; (intros [? ?] || intros ?); congruence. }
  apply reaches_safe_pair in H. unfold lights in H.
  destruct (light_a s), (light_b s); cbn in H; try discriminate;
    repeat split; (intros [? ?] || intros ?); congruence.
Qed.

Lemma lights_never_conflict_witness :
  ~ (light_a ex_yellow_a = Green /\ light_b ex_yellow_a = Green) /\
  (light_a ex_yellow_a = Yellow -> light_b ex_yellow_a = Red) /\
  (light_b ex_yellow_a = Yellow -> light_a ex_yellow_a = Red).
Proof.
  apply (@lights_never_conflict
           (([] ++ tx (call_method (CallUpdate 3) (at_time 0 true) (init 0)))
              ++ tx (call_method (CallUpdate 3) (at_time 2 true) ex_yellow_b)
              ++ tx (call_method (CallUpdate 0) (at_time 3 true) ex_green_a))
           ex_yellow_a).
  rewrite app_assoc.
  apply (reaches_call (CallUpdate 0) (at_time 3 true)).
  apply (reaches_call (CallUpdate 3) (at_time 2 true)).
  apply (reaches_call (CallUpdate 3) (at_time 0 true)).
  apply reaches_init.
Defined.

(** C10. In every reachable state the light pair is one of exactly four
    values, (Red,Green), (Green,Red), (Yellow,Red), (Red,Yellow): the
    directions are never both red, a yellow always faces a red, and each
    of the four pairs is reached by some run. *)
Theorem light_pair_one_of_four log s :
  reaches log s ->
  In (lights s) legal_pairs /\
  lights s <> (Red, Red) /\
  (light_a s = Yellow -> light_b s = Red) /\
  (light_b s = Yellow -> light_a s = Red) /\
  (forall p, In p legal_pairs -> exists log' s', reaches log' s' /\ lights s' = p).
Proof.
  intros H. pose proof (reaches_safe_pair H) as Hs.
  split; [apply safe_pair_legal; exact Hs|].
  split; [intros E; rewrite E in Hs; discriminate|].
  unfold lights in Hs.
  split; [|split].
  - intros E. rewrite E in Hs. destruct (light_b s); cbn in Hs; congruence.
  - intros E. rewrite E in Hs. destruct (light_a s); cbn in Hs; congruence.
  - apply legal_pairs_reachable.
Qed.

Lemma light_pair_one_of_four_witness :
  In (lights ex_green_a) legal_pairs /\
  lights ex_green_a <> (Red, Red) /\
  (light_a ex_green_a = Yellow -> light_b ex_green_a = Red) /\
  (light_b ex_green_a = Yellow -> light_a ex_green_a = Red) /\
  (forall p, In p legal_pairs -> exists log' s', reaches log' s' /\ lights s' = p).
Proof.
  apply (@light_pair_one_of_four
           (([] ++ tx (call_method (CallUpdate 3) (at_time 0 true) (init 0)))
              ++ tx (call_method (CallUpdate 3) (at_time 2 true) ex_yellow_b))
           ex_green_a).
  apply (reaches_call (CallUpdate 3) (at_time 2 true)).
  apply (reaches_call (CallUpdate 3) (at_time 0 true)).
  apply reaches_init.
Defined.

(* ================================================================== *)
(** ** Completion of a yellow clearance *)

(** C3 (as amended). When a yellow clearance completes (the time since its
    start is at least [YELLOW_DURATION]) the call returns, the yellow flag
    is cleared, and the outcome is chosen then, from the mode and the count
    of that call: in high-traffic mode, green for [high_traffic_direction]
    without alert, the window restarting at the completion instant;
    otherwise, on a count of at least 8, green for [high_traffic_direction]
    with the alert, entering high-traffic mode with its window started at
    the completion instant; on a count of 0, (Red, Green); on any other
    count, (Green, Red).  The emitter is asked for that pair: it writes the
    token unless nothing differs, and the pair is recorded when the write
    goes through. *)
Theorem yellow_completion_decided_then c e s t0 :
  is_yellow_transition s = true ->
  yellow_start_time s = Some t0 ->
  (YELLOW_DURATION <= clock e - t0)%Q ->
  let r := update_traffic_lights c e s in
  result r = Return tt /\
  is_yellow_transition (self_of r) = false /\
  high_traffic_direction (self_of r) = high_traffic_direction s /\
  (is_high_traffic_mode s = true ->
   commits s e r (green_for (high_traffic_direction s)) false /\
   is_high_traffic_mode (self_of r) = true /\
   high_traffic_start_time (self_of r) = Some (clock e)) /\
  (is_high_traffic_mode s = false -> (HIGH_TRAFFIC_THRESHOLD <= c)%Z ->
   commits s e r (green_for (high_traffic_direction s)) true /\
   is_high_traffic_mode (self_of r) = true /\
   high_traffic_start_time (self_of r) = Some (clock e)) /\
  (is_high_traffic_mode s = false -> c = 0%Z ->
   commits s e r (Red, Green) false /\
   is_high_traffic_mode (self_of r) = false /\
   high_traffic_start_time (self_of r) = high_traffic_start_time s) /\
  (is_high_traffic_mode s = false -> (c < HIGH_TRAFFIC_THRESHOLD)%Z -> c <> 0%Z ->
   commits s e r (Green, Red) false /\
   is_high_traffic_mode (self_of r) = false /\
   high_traffic_start_time (self_of r) = high_traffic_start_time s).
Proof.
  intros Hy Hs Hd r.
  assert (Hr : r = complete_yellow c (clock e) e s).
  { unfold r, update_traffic_lights.
    rewrite bind_ask, bind_gets, Hy, bind_gets, Hs.
    unfold elapsed_since. rewrite bind_ret.
    apply Qle_bool_iff in Hd. rewrite Hd. reflexivity. }
  rewrite Hr. clear Hr r. unfold complete_yellow, commits.
  rewrite bind_gets.
  destruct (is_high_traffic_mode s) eqn:Hh;
    [| destruct (Z.leb_spec HIGH_TRAFFIC_THRESHOLD c) as [Hc|Hc];
       [| destruct (Z.eqb_spec c 0) as [Hz|Hz]]];
    exec_line;
    try (destruct (high_traffic_direction s) eqn:Hdir; exec_line);
    cbn [green_for negb];
    rewrite ?andb_true_r, ?andb_false_r;
    try match goal with
        | |- context [pair_eqb ?p ?q] =>
            let Ep := fresh "Ep" in
            destruct (pair_eqb p q) eqn:Ep; [apply pair_eqb_eq in Ep|]
        end;
    destruct (link_ok e) eqn:Hl; fields;
    unfold HIGH_TRAFFIC_THRESHOLD in *;
    repeat split; intros;
    try solve [exfalso; congruence | exfalso; lia];
    repeat split; unfold lights in *; fields; try reflexivity; try congruence.
Qed.

Lemma yellow_completion_decided_then_witness :
  let s := ex_yellow_b in
  let e := at_time 2 true in
  let r := update_traffic_lights 0 e s in
  result r = Return tt /\
  is_yellow_transition (self_of r) = false /\
  high_traffic_direction (self_of r) = high_traffic_direction s /\
  (is_high_traffic_mode s = true ->
   commits s e r (green_for (high_traffic_direction s)) false /\
   is_high_traffic_mode (self_of r) = true /\
   high_traffic_start_time (self_of r) = Some (clock e)) /\
  (is_high_traffic_mode s = false -> (HIGH_TRAFFIC_THRESHOLD <= 0)%Z ->
   commits s e r (green_for (high_traffic_direction s)) true /\
   is_high_traffic_mode (self_of r) = true /\
   high_traffic_start_time (self_of r) = Some (clock e)) /\
  (is_high_traffic_mode s = false -> 0%Z = 0%Z ->
   commits s e r (Red, Green) false /\
   is_high_traffic_mode (self_of r) = false /\
   high_traffic_start_time (self_of r) = high_traffic_start_time s) /\
  (is_high_traffic_mode s = false -> (0 < HIGH_TRAFFIC_THRESHOLD)%Z -> 0%Z <> 0%Z ->
   commits s e r (Green, Red) false /\
   is_high_traffic_mode (self_of r) = false /\
   high_traffic_start_time (self_of r) = high_traffic_start_time s).
Proof.
  apply (@yellow_completion_decided_then 0 (at_time 2 true) ex_yellow_b 0).
  - reflexivity.
  - reflexivity.
  - unfold Qle; cbn; lia.
Defined.

(** C3 (as stated, refuted). The clearance that one to seven cars begin at
    start (B on yellow, target [AiGreen] in the specification's words)
    completes two seconds later on a count of 0: the lights committed are
    (Red, Green), not the (Green, Red) of the recorded target. *)
Lemma completion_ignores_recorded_target :
  let s1 := self_of (update_traffic_lights 3 (at_time 0 true) (init 0)) in
  spec_target (init 0) 3 = AiGreen /\
  lights s1 = (Red, Yellow) /\
  lights (self_of (update_traffic_lights 3 (at_time 2 true) s1)) = (Green, Red) /\
  lights (self_of (update_traffic_lights 0 (at_time 2 true) s1)) = (Red, Green) /\
  ~ commits_recorded_target.
Proof.
  repeat split.
  intros H.
  specialize (H [] (init 0) 3%Z (at_time 0 true) 0%Z (at_time 2 true) 0%Q
                (reaches_init 0) eq_refl eq_refl eq_refl eq_refl eq_refl).
  assert (Hq : (YELLOW_DURATION <= clock (at_time 2 true) - 0)%Q)
    by (unfold Qle; cbn; lia).
  specialize (H Hq). vm_compute in H. discriminate H.
Qed.

(* ================================================================== *)
(** ** The detection stabiliser *)

(** The [if]/[elif] chain comes to this: a change is pending when the
    smoothed count is at least 8 or differs from the confirmed one, and the
    candidate is then the smoothed count itself. *)
Lemma classify_eq sm c :
  classify sm c =
  if (HIGH_TRAFFIC_THRESHOLD <=? sm)%Z || negb (sm =? c)%Z
  then (true, sm)
  else (false, c).
Proof.
  unfold classify, HIGH_TRAFFIC_THRESHOLD.
  destruct (Z.leb_spec 8 sm); cbn [orb]; [reflexivity|].
  destruct (Z.eqb_spec c 0), (Z.leb_spec 1 sm), (Z.leb_spec 1 c),
    (Z.eqb_spec sm 0), (Z.eqb_spec sm c), (Z.ltb_spec 0 (Z.abs (sm - c)));
    cbn [andb negb]; try reflexivity; try (exfalso; lia); f_equal; lia.
Qed.

(** One call of the stabiliser, field by field: the sample enters the
    window, and exactly one of four things happens to the candidate. *)
Lemma observe_spec raw e s :
  let r := get_confirmed_car_count raw e s in
  let s' := self_of r in
  let sm := smoothed (push_sample (detection_history s) raw) in
  result r = Return (confirmed_car_count s') /\
  tx r = [] /\
  detection_history s' = push_sample (detection_history s) raw /\
  ( ( (* nothing to confirm *)
      (sm < HIGH_TRAFFIC_THRESHOLD)%Z /\ sm = confirmed_car_count s /\
      confirmed_car_count s' = confirmed_car_count s /\
      pending_car_count s' = confirmed_car_count s /\
      last_state_change_time s' = last_state_change_time s)
    \/
    ( (* a new candidate starts its timer *)
      ((HIGH_TRAFFIC_THRESHOLD <= sm)%Z \/ sm <> confirmed_car_count s) /\
      sm <> pending_car_count s /\
      confirmed_car_count s' = confirmed_car_count s /\
      pending_car_count s' = sm /\
      last_state_change_time s' = clock e)
    \/
    ( (* the candidate has waited long enough *)
      ((HIGH_TRAFFIC_THRESHOLD <= sm)%Z \/ sm <> confirmed_car_count s) /\
      sm = pending_car_count s /\
      (required_time sm <= clock e - last_state_change_time s)%Q /\
      confirmed_car_count s' = sm /\
      pending_car_count s' = sm /\
      last_state_change_time s' = last_state_change_time s)
    \/
    ( (* the candidate keeps waiting *)
      ((HIGH_TRAFFIC_THRESHOLD <= sm)%Z \/ sm <> confirmed_car_count s) /\
      sm = pending_car_count s /\
      ~ (required_time sm <= clock e - last_state_change_time s)%Q /\
      confirmed_car_count s' = confirmed_car_count s /\
      pending_car_count s' = pending_car_count s /\
      last_state_change_time s' = last_state_change_time s) ).
Proof.
  intros r s' sm. unfold s', r, get_confirmed_car_count.
  rewrite bind_ask, bind_gets, bind_assign, bind_gets. fields.
  assert (Hpush :
    forall (B : Type) (k : unit -> M B),
      bind (if (DETECTION_HISTORY_SIZE <? List.length (detection_history s ++ [raw]))%nat
            then assign (with_detection_history (tl (detection_history s ++ [raw])))
            else pass) k e
        (with_detection_history (detection_history s ++ [raw]) s)
      = k tt e (with_detection_history (push_sample (detection_history s) raw) s)).
  { intros B k. unfold push_sample.
    destruct (DETECTION_HISTORY_SIZE <? List.length (detection_history s ++ [raw]))%nat.
    - rewrite bind_assign. reflexivity.
    - unfold pass. rewrite bind_ret. destruct s; reflexivity. }
  rewrite Hpush. clear Hpush.
  rewrite bind_gets. fields. fold sm.
  rewrite bind_gets. fields.
  rewrite classify_eq.
  destruct (Z.leb_spec HIGH_TRAFFIC_THRESHOLD sm) as [Hh|Hh];
    destruct (Z.eqb_spec sm (confirmed_car_count s)) as [Hc|Hc]; cbn [orb negb];
    exec_line;
    try (destruct (Z.eqb_spec sm (pending_car_count s)) as [Hp|Hp]; cbn [negb];
         exec_line;
         try (destruct (Qle_bool (required_time sm)
                          (clock e - last_state_change_time s)) eqn:Hq;
              [apply Qle_bool_iff in Hq
              | assert (~ (required_time sm <= clock e - last_state_change_time s)%Q)
                  by (rewrite <- Qle_bool_iff; congruence)];
              exec_line)).
  all: repeat split.
  all: try solve [left; repeat split; auto].
  all: try solve [right; left; repeat split; auto].
  all: try solve [right; right; left; repeat split; auto].
  all: try solve [right; right; right; repeat split; auto].
Qed.

Lemma fold_left_add (l : list Z) (a : Z) :
  fold_left Z.add l a = (a + sum l)%Z.
Proof.
  unfold sum. revert a.
  induction l as [|x l IH]; intros a; cbn.
  - lia.
  - rewrite IH, (IH x). lia.
Qed.

Lemma sum_cons x l : sum (x :: l) = (x + sum l)%Z.
Proof. unfold sum at 1. cbn. apply fold_left_add. Qed.

Lemma sum_app l1 l2 : sum (l1 ++ l2) = (sum l1 + sum l2)%Z.
Proof.
  induction l1 as [|x l1 IH]; cbn [app].
  - reflexivity.
  - rewrite !sum_cons, IH. lia.
Qed.

Lemma sum_repeat c n : sum (repeat c n) = (Z.of_nat n * c)%Z.
Proof.
  induction n as [|n IH].
  - reflexivity.
  - cbn [repeat]. rewrite sum_cons, IH. lia.
Qed.

(** The mean of a constant window rounds to the constant. *)
Lemma round_div_mul c n : (0 < n)%Z -> round_div (n * c) n = c.
Proof.
  intros Hn. unfold round_div. cbv zeta.
  replace (n * c)%Z with (c * n)%Z by lia.
  rewrite Z.div_mul, Z.mod_mul by lia.
  destruct (Z.ltb_spec (2 * 0) n); [reflexivity | lia].
Qed.

Lemma smoothed_repeat c n : (0 < n)%nat -> smoothed (repeat c n) = c.
Proof.
  intros Hn. unfold smoothed.
  rewrite sum_repeat, repeat_length. apply round_div_mul. lia.
Qed.

(** A window with one outlier smooths to the same value wherever the
    outlier stands. *)
Lemma smoothed_one_outlier c v a b :
  (a + b = 9)%nat ->
  smoothed (repeat c a ++ v :: repeat c b) = smoothed (repeat c 9 ++ [v]).
Proof.
  intros Hab. unfold smoothed.
  rewrite !sum_app, !sum_cons, !sum_repeat, !length_app.
  cbn [List.length]. rewrite !repeat_length.
  replace (sum []) with 0%Z by reflexivity.
  f_equal; lia.
Qed.

Lemma push_sample_full x h y :
  List.length h = 9%nat -> push_sample (x :: h) y = h ++ [y].
Proof.
  intros Hl. unfold push_sample, DETECTION_HISTORY_SIZE.
  cbn [app List.length]. rewrite length_app, Hl. reflexivity.
Qed.

Lemma repeat_snoc (c : Z) n : repeat c n ++ [c] = repeat c (S n).
Proof.
  induction n as [|n IH]; cbn; [reflexivity | now rewrite IH].
Qed.

Lemma observe_all_cons raw t rest s :
  let s' := self_of (get_confirmed_car_count raw (mkEnv t t true) s) in
  fst (observe_all ((raw, t) :: rest) s) =
  confirmed_car_count s' :: fst (observe_all rest s').
Proof.
  cbn [observe_all].
  destruct (observe_all rest (self_of (get_confirmed_car_count raw (mkEnv t t true) s))).
  reflexivity.
Qed.

Section SingleOutlier.
Variables (c v : Z) (t0 : Q).

(** The outlier arrives at a settled stabiliser. *)
Lemma outlier_enters s :
  settled_on c s ->
  outlier_in_window c v t0 0
    (self_of (get_confirmed_car_count v (mkEnv t0 t0 true) s)).
Proof.
  intros (Hh & Hc & Hp).
  destruct (observe_spec v (mkEnv t0 t0 true) s) as (_ & _ & Hh' & Hcases).
  rewrite Hh in Hh', Hcases.
  change (push_sample (repeat c DETECTION_HISTORY_SIZE) v)
    with (repeat c 9 ++ [v]) in Hh', Hcases.
  rewrite Hc, Hp in Hcases. cbn [clock] in Hcases.
  unfold outlier_in_window. split; [exact Hh'|].
  destruct Hcases as [H|[H|[H|H]]].
  - destruct H as (_ & E & -> & -> & _). auto.
  - destruct H as (_ & N & -> & -> & ->). auto.
  - destruct H as (_ & E & _ & -> & -> & _). auto.
  - destruct H as (_ & E & _ & -> & -> & _). auto.
Qed.

(** While the outlier is in the window, a sample of [c] that comes
    sooner than the confirmation delay after it changes nothing. *)
Lemma outlier_stays k t s :
  (k < 9)%nat ->
  (t - t0 < required_time (smoothed (repeat c 9 ++ [v])))%Q ->
  outlier_in_window c v t0 k s ->
  outlier_in_window c v t0 (S k)
    (self_of (get_confirmed_car_count c (mkEnv t t true) s)).
Proof.
  intros Hk Ht (Hh & Hc & Hp).
  destruct (observe_spec c (mkEnv t t true) s) as (_ & _ & Hh' & Hcases).
  assert (Hpush : push_sample (detection_history s) c
                  = repeat c (9 - S k) ++ v :: repeat c (S k)).
  { rewrite Hh. replace (9 - k)%nat with (S (9 - S k)) by lia.
    cbn [repeat app]. rewrite push_sample_full.
    - rewrite <- app_assoc. cbn [app]. f_equal. f_equal.
      change (c :: repeat c k) with (repeat c (S k)).
      rewrite <- repeat_snoc. reflexivity.
    - rewrite length_app. cbn [List.length]. rewrite !repeat_length. lia. }
  rewrite Hpush in Hh', Hcases.
  rewrite smoothed_one_outlier in Hcases by lia.
  rewrite Hc in Hcases. cbn [clock] in Hcases.
  unfold outlier_in_window. split; [exact Hh'|].
  destruct Hcases as [H|[H|[H|H]]].
  - destruct H as (_ & E & -> & -> & _). auto.
  - destruct H as (_ & N & _). exfalso.
    destruct Hp as [[E Ep]|[_ [Ep _]]]; congruence.
  - destruct H as (_ & E & Hq & -> & -> & _).
    destruct Hp as [[E' Ep]|[_ [_ Et]]]; [auto|].
    exfalso. rewrite Et in Hq. apply (Qlt_not_le _ _ Ht). exact Hq.
  - destruct H as (_ & _ & _ & -> & -> & ->). auto.
Qed.

(** The tenth sample after the outlier pushes it out. *)
Lemma outlier_leaves t s :
  outlier_in_window c v t0 9 s ->
  outlier_gone c (self_of (get_confirmed_car_count c (mkEnv t t true) s)).
Proof.
  intros (Hh & Hc & Hp).
  destruct (observe_spec c (mkEnv t t true) s) as (_ & _ & Hh' & Hcases).
  assert (Hpush : push_sample (detection_history s) c = repeat c 10).
  { rewrite Hh. reflexivity. }
  rewrite Hpush in Hh', Hcases.
  rewrite smoothed_repeat in Hcases by lia.
  split; [exact Hh'|].
  destruct Hcases as [H|[H|[H|H]]].
  - destruct H as (_ & _ & -> & _). exact Hc.
  - destruct H as (_ & _ & -> & _). exact Hc.
  - destruct H as (_ & _ & _ & -> & _). reflexivity.
  - destruct H as (_ & _ & _ & -> & _). exact Hc.
Qed.

(** Once it is out, the constant stream keeps the confirmed count. *)
Lemma outlier_gone_stays t s :
  outlier_gone c s ->
  outlier_gone c (self_of (get_confirmed_car_count c (mkEnv t t true) s)).
Proof.
  intros (Hh & Hc).
  destruct (observe_spec c (mkEnv t t true) s) as (_ & _ & Hh' & Hcases).
  assert (Hpush : push_sample (detection_history s) c = repeat c 10).
  { rewrite Hh. reflexivity. }
  rewrite Hpush in Hh', Hcases.
  rewrite smoothed_repeat in Hcases by lia.
  split; [exact Hh'|].
  destruct Hcases as [H|[H|[H|H]]].
  - destruct H as (_ & _ & -> & _). exact Hc.
  - destruct H as (_ & _ & -> & _). exact Hc.
  - destruct H as (_ & _ & _ & -> & _). reflexivity.
  - destruct H as (_ & _ & _ & -> & _). exact Hc.
Qed.

Lemma constant_after_outlier_gone ts : forall s,
  outlier_gone c s ->
  Forall (fun n => n = c) (fst (observe_all (map (fun t => (c, t)) ts) s)).
Proof.
  induction ts as [|t ts IH]; intros s Hs.
  - constructor.
  - cbn [map]. rewrite observe_all_cons.
    pose proof (outlier_gone_stays t Hs) as Hs'.
    constructor; [apply Hs' | apply IH; exact Hs'].
Qed.

Lemma constant_while_outlier_in_window ts : forall k s,
  (k <= 9)%nat ->
  outlier_in_window c v t0 k s ->
  Forall (fun t => (t - t0 < required_time (smoothed (repeat c 9 ++ [v])))%Q) (firstn (9 - k) ts) ->
  Forall (fun n => n = c) (fst (observe_all (map (fun t => (c, t)) ts) s)).
Proof.
  induction ts as [|t ts IH]; intros k s Hk Hs Hts.
  - constructor.
  - cbn [map]. rewrite observe_all_cons.
    destruct (Nat.eq_dec k 9) as [->|Hne].
    + pose proof (outlier_leaves t Hs) as Hs'.
      constructor; [apply Hs' | apply constant_after_outlier_gone; exact Hs'].
    + replace (9 - k)%nat with (S (9 - S k)) in Hts by lia.
      cbn [firstn] in Hts. inversion Hts as [|? ? Ht Hts']; subst.
      assert (Hs' := @outlier_stays k t s ltac:(lia) Ht Hs).
      constructor; [apply Hs' | apply (IH (S k)); [lia | exact Hs' | exact Hts']].
Qed.
End SingleOutlier.

(** C6 (as amended). A stabiliser settled on a constant [c] (full window of
    [c], confirmed, nothing pending) receives one outlier [v] at [t0] and
    then samples of [c] again.  If each of the nine samples that still
    have the outlier in the window arrives less than the confirmation delay
    of the smoothed value after [t0], every call returns [c]: the
    confirmed count never changes. *)
Theorem single_outlier_filtered s c v t0 ts :
  settled_on c s ->
  Forall (fun t => (t - t0 < required_time (smoothed (repeat c 9 ++ [v])))%Q)
    (firstn 9 ts) ->
  Forall (fun n => n = c)
    (fst (observe_all ((v, t0) :: map (fun t => (c, t)) ts) s)).
Proof.
  intros Hs Hts.
  rewrite observe_all_cons.
  pose proof (outlier_enters v t0 Hs) as Hs'.
  constructor; [apply Hs'|].
  apply (@constant_while_outlier_in_window c v t0 ts 0); [lia | exact Hs' | exact Hts].
Qed.

Lemma settled_ex_settled_empty : settled_on 0 ex_settled_empty.
Proof. repeat split. Qed.

Lemma single_outlier_filtered_witness :
  Forall (fun n => n = 0%Z)
    (fst (observe_all
            ((9%Z, 10) :: map (fun t => (0%Z, t))
                            [51#5; 52#5; 53#5; 54#5; 55#5; 56#5; 57#5; 58#5; 59#5; 20])
            ex_settled_empty)).
Proof.
  apply (@single_outlier_filtered ex_settled_empty 0 9 10
           [51#5; 52#5; 53#5; 54#5; 55#5; 56#5; 57#5; 58#5; 59#5; 20]).
  - repeat split.
  - repeat constructor.
Defined.

(** C6 (as stated, refuted). One frame with nine cars amid empty frames
    that come one second apart: the outlier keeps the smoothed count at 1
    for the next nine frames, and three seconds later 1 is confirmed. *)
Lemma slow_frames_confirm_outlier :
  settled_on 0 ex_settled_empty /\
  fst (observe_all ((9%Z, 10) :: map (fun t => (0%Z, t)) [11; 12; 13])
         ex_settled_empty) = [0; 0; 0; 1]%Z /\
  ~ single_outlier_never_confirmed.
Proof.
  split; [apply settled_ex_settled_empty|].
  split; [reflexivity|].
  intros H.
  specialize (H ex_settled_empty 0%Z 9%Z 10 [11; 12; 13] settled_ex_settled_empty).
  change (Forall (fun n => n = 0%Z) [0; 0; 0; 1]%Z) in H.
  inversion H as [|? ? _ H1]; subst.
  inversion H1 as [|? ? _ H2]; subst.
  inversion H2 as [|? ? _ H3]; subst.
  inversion H3 as [|? ? E _]; subst.
  discriminate E.
Qed.

(* ================================================================== *)
(** ** Counts that are not valid *)

Lemma push_sample_snoc h x : exists h', push_sample h x = h' ++ [x].
Proof.
  unfold push_sample. destruct h as [|y h].
  - exists []. reflexivity.
  - destruct (DETECTION_HISTORY_SIZE <? List.length ((y :: h) ++ [x]))%nat.
    + exists h. reflexivity.
    + exists (y :: h). reflexivity.
Qed.

Lemma sample_sum_finite (w : list Sample) : forall acc,
  Forall (fun x => ~ non_finite x) w ->
  exists s, fold_left sample_add w (Finite acc) = Finite s.
Proof.
  induction w as [|x w IH]; intros acc Hw.
  - exists acc. reflexivity.
  - inversion Hw as [|? ? Hx Hrest]; subst.
    destruct x as [n| | |]; cbn in Hx; try contradiction.
    cbn [fold_left sample_add]. apply IH. exact Hrest.
Qed.







Lemma call_observe_eq raw e s :
  self_of (call_method (CallObserve raw) e s) = self_of (get_confirmed_car_count raw e s) /\
  tx (call_method (CallObserve raw) e s) = [].
Proof.
  cbn [call_method]. unfold bind, pass, ret.
  destruct (observe_spec raw e s) as (Hr & Ht & _).
  destruct (get_confirmed_car_count raw e s) as [res s1 o1].
  cbn in *. subst. cbn. auto.
Qed.

(** Feeding the stabiliser is part of a run and leaves the port alone. *)
Lemma reaches_observe_all samples : forall log s,
  reaches log s -> reaches log (snd (observe_all samples s)).
Proof.
  induction samples as [|[raw t] rest IH]; intros log s H.
  - exact H.
  - cbn [observe_all].
    specialize (IH log (self_of (get_confirmed_car_count raw (mkEnv t t true) s))).
    destruct (observe_all rest (self_of (get_confirmed_car_count raw (mkEnv t t true) s)))
      as [counts s'].
    cbn [snd] in *. apply IH.
    destruct (call_observe_eq raw (mkEnv t t true) s) as [Es Et].
    rewrite <- Es. rewrite <- (app_nil_r log), <- Et.
    apply reaches_call. exact H.
Qed.


(* ================================================================== *)
(** ** Yellow before red *)

(** Leaving high-traffic mode on a count of 0 sends (Red, Green) at once,
    also when it is A that holds the green. *)
Lemma high_traffic_exit_skips_yellow e s :
  is_yellow_transition s = false ->
  is_high_traffic_mode s = true ->
  lights s = (Green, Red) ->
  link_ok e = true ->
  let r := update_traffic_lights 0 e s in
  tx r = [encode (command Red Green false)] /\
  lights (self_of r) = (Red, Green) /\
  is_yellow_transition (self_of r) = false.
Proof.
  intros Hy Hh Hl Hok r. unfold r, update_traffic_lights.
  rewrite bind_ask, bind_gets, Hy.
  change (HIGH_TRAFFIC_THRESHOLD <=? 0)%Z with false. cbv iota.
  rewrite bind_gets, Hh. change (0 =? 0)%Z with true. cbv iota.
  rewrite bind_assign, send_commands_quiet_eq. unfold lights in *. fields.
  injection Hl as -> ->. cbn. rewrite Hok. cbn. rewrite Hy. repeat split.
Qed.

(** C2 (the code departs from it). Eight cars from start: high-traffic mode
    is entered, after 30 s the green passes to A through B's yellow; then
    the road empties and the confirmed count falls to 0.  Up to there the
    port has received [H\n], [ARBY], [AGBR] and A is green.  The next frame
    writes [ARBG] alone: A goes from green to red in one step, with no
    yellow in between. *)
Theorem green_to_red_without_yellow :
  let before := ex_congested_green_a in
  let last :=
    frame 0 (at_time (379#10) true) (at_time (379#10) true) None (self_of before) in
  result before = Return tt /\
  tx before = [bare_alert; encode (command Red Yellow false);
               encode (command Green Red false)] /\
  lights (self_of before) = (Green, Red) /\
  is_yellow_transition (self_of before) = false /\
  result last = Return tt /\
  tx last = [encode (command Red Green false)] /\
  lights (self_of last) = (Red, Green) /\
  is_yellow_transition (self_of last) = false.
Proof.
  vm_compute. repeat split.
Qed.

(* ================================================================== *)
(** ** Timers are set before they are read *)

Lemma update_keeps_timers_set c e s :
  timers_set s -> timers_set (self_of (update_traffic_lights c e s)).
Proof.
  intros [Hy Hh].
  unfold update_traffic_lights, complete_yellow, alternate_direction, timers_set.
  exec; split; intros;
    first [discriminate | congruence | solve [auto] | solve [exfalso; auto]
          | intuition congruence].
Qed.

Lemma reaches_timers_set log s : reaches log s -> timers_set s.
Proof.
  induction 1 as [t | log s c e _ IH].
  - split; discriminate.
  - destruct c as [|raw|n|]; [cbn [call_method] | | cbn [call_method] ..].
    + destruct IH as [Hy Hh]. rewrite startup_eq. unfold timers_set.
      destruct (pair_eqb (lights s) (Red, Green)), (link_ok e); fields; auto.
    + destruct (call_observe_eq raw e s) as [-> _].
      destruct IH as [Hy Hh]. unfold timers_set, get_confirmed_car_count.
      exec; auto.
    + apply update_keeps_timers_set. exact IH.
    + rewrite reset_eq. split; discriminate.
Qed.

(** In a run, [update_traffic_lights] returns unless the bare alert meets a
    dead link; the exception then leaves the object untouched. *)
Lemma update_raises_only_on_dead_link log s c e :
  reaches log s ->
  let r := update_traffic_lights c e s in
  result r = Return tt \/
  (result r = Raise SerialException /\ link_ok e = false /\
   self_of r = s /\ tx r = [bare_alert]).
Proof.
  intros H. apply reaches_timers_set in H. destruct H as [Hy Hh].
  unfold update_traffic_lights, complete_yellow, alternate_direction.
  exec;
    first [ left; reflexivity
          | right; repeat split; solve [auto]
          | solve [exfalso; apply Hy; congruence]
          | solve [exfalso; apply Hh; congruence] ].
Qed.

(* ================================================================== *)
(** * Further properties of the engine *)

(** ** [update_traffic_lights], mode by mode *)

Lemma update_in_clearance c e s t0 :
  is_yellow_transition s = true ->
  yellow_start_time s = Some t0 ->
  update_traffic_lights c e s =
  if Qle_bool YELLOW_DURATION (clock e - t0)
  then complete_yellow c (clock e) e s
  else mkRes (Return tt) s [].
Proof.
  intros Hy Hs. unfold update_traffic_lights.
  rewrite bind_ask, bind_gets, Hy, bind_gets, Hs.
  unfold elapsed_since. rewrite bind_ret.
  destruct (Qle_bool YELLOW_DURATION (clock e - t0)); reflexivity.
Qed.

Lemma complete_yellow_clears_flag c now e s :
  result (complete_yellow c now e s) = Return tt /\
  is_yellow_transition (self_of (complete_yellow c now e s)) = false.
Proof.
  unfold complete_yellow. exec; split; reflexivity.
Qed.

Lemma update_in_high_traffic c e s t :
  is_yellow_transition s = false ->
  is_high_traffic_mode s = true ->
  high_traffic_start_time s = Some t ->
  update_traffic_lights c e s =
  if (c =? 0)%Z
  then (assign (with_is_high_traffic_mode false) ;; send_commands Red Green false) e s
  else if Qle_bool HIGH_TRAFFIC_TIMER (clock e - t)
       then alternate_direction (clock e) e s
       else mkRes (Return tt) s [].
Proof.
  intros Hy Hh Hs. unfold update_traffic_lights.
  rewrite bind_ask, bind_gets, Hy.
  destruct (Z.leb_spec HIGH_TRAFFIC_THRESHOLD c) as [Hc|Hc];
    rewrite bind_gets, Hh; cbn [negb].
  - rewrite bind_gets, Hs. unfold elapsed_since. rewrite bind_ret.
    destruct (Z.eqb_spec c 0) as [Hz|Hz];
      [unfold HIGH_TRAFFIC_THRESHOLD in Hc; lia|].
    destruct (Qle_bool HIGH_TRAFFIC_TIMER (clock e - t)); reflexivity.
  - destruct (Z.eqb_spec c 0) as [Hz|Hz]; [reflexivity|].
    rewrite bind_gets, Hs. unfold elapsed_since. rewrite bind_ret.
    destruct (Qle_bool HIGH_TRAFFIC_TIMER (clock e - t)); reflexivity.
Qed.

(** ** A clearance is never cut short *)

(** X1. While a yellow clearance is younger than [YELLOW_DURATION], a call
    of [update_traffic_lights] does nothing at all, whatever the count:
    it returns, writes nothing and leaves the object as it is.  So a call
    that clears the yellow flag comes at least [YELLOW_DURATION] after the
    clearance began. *)
Theorem clearance_holds_for_yellow_duration c e s t0 :
  is_yellow_transition s = true ->
  yellow_start_time s = Some t0 ->
  let r := update_traffic_lights c e s in
  ((clock e - t0 < YELLOW_DURATION)%Q -> r = mkRes (Return tt) s []) /\
  (is_yellow_transition (self_of r) = false -> (YELLOW_DURATION <= clock e - t0)%Q).
Proof.
  intros Hy Hs r. unfold r. rewrite (update_in_clearance c e s Hy Hs).
  destruct (Qle_bool YELLOW_DURATION (clock e - t0)) eqn:E.
  - apply Qle_bool_iff in E. split; [|intros _; exact E].
    intros Hlt. exfalso. exact (Qlt_not_le _ _ Hlt E).
  - split; [reflexivity|]. cbn [self_of]. congruence.
Qed.

Lemma clearance_holds_for_yellow_duration_witness :
  let r := update_traffic_lights 0 (at_time 1 true) ex_yellow_b in
  ((clock (at_time 1 true) - 0 < YELLOW_DURATION)%Q ->
   r = mkRes (Return tt) ex_yellow_b []) /\
  (is_yellow_transition (self_of r) = false ->
   (YELLOW_DURATION <= clock (at_time 1 true) - 0)%Q).
Proof.
  exact (@clearance_holds_for_yellow_duration 0 (at_time 1 true) ex_yellow_b 0
           eq_refl eq_refl).
Defined.

(** ** High-traffic mode *)

(** X2. [update_traffic_lights] leaves high-traffic mode only on a count of
    exactly 0 and outside a clearance; and outside a clearance a count of 0
    always leaves it, asking the emitter for (Red, Green) without alert. *)
Theorem high_traffic_left_only_on_zero c e s :
  is_high_traffic_mode s = true ->
  let r := update_traffic_lights c e s in
  (is_high_traffic_mode (self_of r) = false ->
   c = 0%Z /\ is_yellow_transition s = false) /\
  (is_yellow_transition s = false -> c = 0%Z ->
   result r = Return tt /\
   is_high_traffic_mode (self_of r) = false /\
   commits s e r (Red, Green) false).
Proof.
  intros Hh r. unfold r, update_traffic_lights, complete_yellow, alternate_direction.
  rewrite bind_ask, bind_gets.
  destruct (is_yellow_transition s) eqn:Hy.
  - split; [|discriminate].
    exec; intros; congruence.
  - destruct (Z.leb_spec HIGH_TRAFFIC_THRESHOLD c) as [Hc|Hc];
      rewrite bind_gets, Hh; cbn [negb];
      unfold HIGH_TRAFFIC_THRESHOLD in Hc.
    + rewrite bind_gets.
      destruct (Z.eqb_spec c 0) as [Hz|Hz]; [lia|].
      split; [|intros _ E; contradiction].
      exec; intros; congruence.
    + destruct (Z.eqb_spec c 0) as [Hz|Hz].
      * split; [auto|]. intros _ _. unfold commits.
        rewrite bind_assign, send_commands_quiet_eq. unfold lights. fields.
        cbn [negb]. rewrite andb_true_r.
        destruct (pair_eqb (light_a s, light_b s) (Red, Green)) eqn:Ep;
          [apply pair_eqb_eq in Ep|]; destruct (link_ok e); fields; auto.
      * split; [|intros _ E; contradiction].
        exec; intros; congruence.
Qed.

Lemma high_traffic_left_only_on_zero_witness :
  let r := update_traffic_lights 0 (at_time 1 true) ex_high_traffic_b in
  (is_high_traffic_mode (self_of r) = false ->
   0%Z = 0%Z /\ is_yellow_transition ex_high_traffic_b = false) /\
  (is_yellow_transition ex_high_traffic_b = false -> 0%Z = 0%Z ->
   result r = Return tt /\
   is_high_traffic_mode (self_of r) = false /\
   commits ex_high_traffic_b (at_time 1 true) r (Red, Green) false).
Proof.
  exact (@high_traffic_left_only_on_zero 0 (at_time 1 true) ex_high_traffic_b eq_refl).
Defined.

(** X3. In high-traffic mode, outside a clearance, a count other than 0
    that arrives before [HIGH_TRAFFIC_TIMER] has run out does nothing: the
    direction that holds the green keeps it whether the count is above the
    threshold or has dropped below it. *)
Theorem high_traffic_window_holds c e s t :
  is_yellow_transition s = false ->
  is_high_traffic_mode s = true ->
  high_traffic_start_time s = Some t ->
  c <> 0%Z ->
  (clock e - t < HIGH_TRAFFIC_TIMER)%Q ->
  update_traffic_lights c e s = mkRes (Return tt) s [].
Proof.
  intros Hy Hh Hs Hc Ht.
  rewrite (update_in_high_traffic c e s Hy Hh Hs).
  destruct (Z.eqb_spec c 0) as [Hz|_]; [contradiction|].
  destruct (Qle_bool HIGH_TRAFFIC_TIMER (clock e - t)) eqn:E; [|reflexivity].
  apply Qle_bool_iff in E. exfalso. exact (Qlt_not_le _ _ Ht E).
Qed.

Lemma high_traffic_window_holds_witness :
  update_traffic_lights 5 (at_time 29 true) ex_high_traffic_b =
  mkRes (Return tt) ex_high_traffic_b [].
Proof.
  apply (@high_traffic_window_holds 5 (at_time 29 true) ex_high_traffic_b 0);
    try reflexivity.
  discriminate.
Defined.

(** X4. In high-traffic mode, outside a clearance, a count other than 0 that
    arrives once [HIGH_TRAFFIC_TIMER] has run out starts the alternation:
    [high_traffic_direction] flips, the emitter is asked, without alert, to
    put the side that held the direction on yellow, a clearance starts at
    this instant, and the window's start time is left as it was (it is
    restarted when the clearance completes). *)
Theorem high_traffic_alternates c e s t :
  is_yellow_transition s = false ->
  is_high_traffic_mode s = true ->
  high_traffic_start_time s = Some t ->
  c <> 0%Z ->
  (HIGH_TRAFFIC_TIMER <= clock e - t)%Q ->
  let r := update_traffic_lights c e s in
  result r = Return tt /\
  high_traffic_direction (self_of r) = opposite (high_traffic_direction s) /\
  commits s e r
    (match high_traffic_direction s with
     | DirA => (Yellow, Red)
     | DirB => (Red, Yellow)
     end) false /\
  is_yellow_transition (self_of r) = true /\
  yellow_start_time (self_of r) = Some (clock e) /\
  is_high_traffic_mode (self_of r) = true /\
  high_traffic_start_time (self_of r) = Some t.
Proof.
  intros Hy Hh Hs Hc Ht r. unfold r.
  rewrite (update_in_high_traffic c e s Hy Hh Hs).
  destruct (Z.eqb_spec c 0) as [Hz|_]; [contradiction|].
  apply Qle_bool_iff in Ht. rewrite Ht.
  unfold alternate_direction, commits. rewrite bind_gets.
  destruct (high_traffic_direction s) eqn:Hd; exec_line;
    cbn [negb opposite]; rewrite ?andb_true_r; unfold lights; fields;
    match goal with
    | |- context [pair_eqb ?p ?q] =>
        destruct (pair_eqb p q) eqn:Ep; [apply pair_eqb_eq in Ep|]
    end;
    destruct (link_ok e); unfold lights in *; fields; repeat split; auto.
Qed.

Lemma high_traffic_alternates_witness :
  let s := ex_high_traffic_b in
  let e := at_time 30 true in
  let r := update_traffic_lights 5 e s in
  result r = Return tt /\
  high_traffic_direction (self_of r) = opposite (high_traffic_direction s) /\
  commits s e r
    (match high_traffic_direction s with
     | DirA => (Yellow, Red)
     | DirB => (Red, Yellow)
     end) false /\
  is_yellow_transition (self_of r) = true /\
  yellow_start_time (self_of r) = Some (clock e) /\
  is_high_traffic_mode (self_of r) = true /\
  high_traffic_start_time (self_of r) = Some 0.
Proof.
  apply (@high_traffic_alternates 5 (at_time 30 true) ex_high_traffic_b 0);
    try reflexivity.
  - discriminate.
  - unfold Qle; cbn; lia.
Defined.

(** ** Normal mode *)

(** Tests on the count, as propositions. *)
Ltac count_tests :=
  unfold HIGH_TRAFFIC_THRESHOLD in *;
  repeat match goal with
         | H : (_ <=? _)%Z = true |- _ => apply Z.leb_le in H
         | H : (_ <=? _)%Z = false |- _ => apply Z.leb_gt in H
         | H : (_ =? _)%Z = true |- _ => apply Z.eqb_eq in H
         | H : (_ =? _)%Z = false |- _ => apply Z.eqb_neq in H
         end.

Lemma lights_eq s a b : lights s = (a, b) -> light_a s = a /\ light_b s = b.
Proof. unfold lights. intros H. injection H as -> ->. auto. Qed.

(** X5. In normal mode a call of [update_traffic_lights] does nothing when
    the lights already suit the count: (Red, Green) with no car,
    (Green, Red) with one to seven cars.  A negative count does nothing
    either, whatever the lights. *)
Theorem normal_mode_steady c e s :
  normal_mode s ->
  (lights s = (Red, Green) /\ c = 0%Z) \/
  (lights s = (Green, Red) /\ (1 <= c < HIGH_TRAFFIC_THRESHOLD)%Z) \/
  (c < 0)%Z ->
  update_traffic_lights c e s = mkRes (Return tt) s [].
Proof.
  intros [Hy Hh] Hcase. unfold update_traffic_lights.
  rewrite bind_ask, bind_gets, Hy.
  destruct Hcase as [[Hl Hc]|[[Hl Hc]|Hc]];
    try (apply lights_eq in Hl; destruct Hl as [Ha Hb]);
    exec; count_tests;
    solve [reflexivity | discriminate | congruence | exfalso; lia].
Qed.

Lemma normal_mode_steady_witness :
  update_traffic_lights 4 (at_time 9 true) ex_green_a = mkRes (Return tt) ex_green_a [].
Proof.
  apply (@normal_mode_steady 4 (at_time 9 true) ex_green_a).
  - split; reflexivity.
  - right. left. split; [reflexivity|]. unfold HIGH_TRAFFIC_THRESHOLD. lia.
Defined.

(** X6. In normal mode, from one of the four legal pairs, no call of
    [update_traffic_lights] turns a side from green to red: a green that
    has to go is first put on yellow, whatever the count and the link. *)
Theorem normal_mode_green_never_straight_to_red c e s :
  normal_mode s ->
  safe_pair (lights s) = true ->
  let s' := self_of (update_traffic_lights c e s) in
  ~ (light_a s = Green /\ light_a s' = Red) /\
  ~ (light_b s = Green /\ light_b s' = Red).
Proof.
  intros [Hy Hh] Hs. unfold update_traffic_lights.
  rewrite bind_ask, bind_gets, Hy. unfold lights in Hs.
  exec;
    solve [ discriminate
          | destruct (light_a s) eqn:?, (light_b s) eqn:?; cbn in *;
            try discriminate; try congruence;
            split; intros [? ?]; congruence ].
Qed.

Lemma normal_mode_green_never_straight_to_red_witness :
  let s' := self_of (update_traffic_lights 0 (at_time 9 true) ex_green_a) in
  ~ (light_a ex_green_a = Green /\ light_a s' = Red) /\
  ~ (light_b ex_green_a = Green /\ light_b s' = Red).
Proof.
  apply (@normal_mode_green_never_straight_to_red 0 (at_time 9 true) ex_green_a).
  - split; reflexivity.
  - reflexivity.
Defined.

(** X7. Once the object records yellow for A while no clearance is in
    progress and high-traffic mode is off (the state a failed write at the
    end of A's clearance leaves), [update_traffic_lights] does nothing for
    any count: only the reset key gets the engine out. *)
Theorem yellow_without_clearance_is_stuck c e s :
  normal_mode s ->
  light_a s = Yellow ->
  update_traffic_lights c e s = mkRes (Return tt) s [].
Proof.
  intros [Hy Hh] Ha. unfold update_traffic_lights.
  rewrite bind_ask, bind_gets, Hy.
  exec; solve [reflexivity | discriminate | congruence].
Qed.

Lemma reaches_ex_stuck_yellow :
  reaches [encode (command Red Yellow false); encode (command Green Red false);
           encode (command Yellow Red false); encode (command Red Green false)]
    ex_stuck_yellow.
Proof.
  exact (reaches_call (CallUpdate 0) (at_time 5 false) reaches_ex_yellow_a).
Qed.

Lemma yellow_without_clearance_is_stuck_witness :
  lights ex_stuck_yellow = (Yellow, Red) /\
  update_traffic_lights 3 (at_time 60 true) ex_stuck_yellow =
  mkRes (Return tt) ex_stuck_yellow [].
Proof.
  split; [reflexivity|].
  apply (@yellow_without_clearance_is_stuck 3 (at_time 60 true) ex_stuck_yellow).
  - split; reflexivity.
  - reflexivity.
Defined.

(** ** The alert *)

(** X8. A call of [update_traffic_lights] writes something that carries the
    alert only when high-traffic mode was off before the call, and the mode
    is on when the call returns: alternations inside the mode and the way
    out of it never sound the buzzer. *)
Theorem alert_only_on_entry c e s :
  let r := update_traffic_lights c e s in
  existsb carries_alert (tx r) = true ->
  is_high_traffic_mode s = false /\
  (result r = Return tt -> is_high_traffic_mode (self_of r) = true).
Proof.
  unfold update_traffic_lights, complete_yellow, alternate_direction.
  exec; cbn; intros H; try discriminate H; split; intros; congruence.
Qed.

Lemma alert_only_on_entry_witness :
  is_high_traffic_mode (init 0) = false /\
  (result (update_traffic_lights 9 (at_time 0 true) (init 0)) = Return tt ->
   is_high_traffic_mode (self_of (update_traffic_lights 9 (at_time 0 true) (init 0)))
   = true).
Proof.
  exact (@alert_only_on_entry 9 (at_time 0 true) (init 0) eq_refl).
Defined.

(** ** Exceptions *)

(** X9. In a run, [update_traffic_lights] never trips over an unset timer:
    it returns, unless the bare alert meets a dead link, in which case the
    [SerialException] escapes with the object untouched. *)
Theorem update_returns_in_runs log s c e :
  reaches log s ->
  let r := update_traffic_lights c e s in
  result r <> Raise TypeError /\
  (result r <> Return tt ->
   result r = Raise SerialException /\ link_ok e = false /\
   self_of r = s /\ tx r = [bare_alert]).
Proof.
  intros H r.
  destruct (update_raises_only_on_dead_link c e H) as [Hr|(Hr & Hl & Hs & Ht)];
    fold r in Hr; try fold r in Hs, Ht; rewrite Hr; split;
    try discriminate; try contradiction; auto.
Qed.

Lemma update_returns_in_runs_witness :
  let r := update_traffic_lights 9 (at_time 1 false) ex_yellow_b in
  result r <> Raise TypeError /\
  (result r <> Return tt ->
   result r = Raise SerialException /\ link_ok (at_time 1 false) = false /\
   self_of r = ex_yellow_b /\ tx r = [bare_alert]).
Proof.
  exact (@update_returns_in_runs _ ex_yellow_b 9 (at_time 1 false)
           (reaches_call (CallUpdate 3) (at_time 0 true) (reaches_init 0))).
Defined.

(** ** The engine and the stabiliser keep to their own fields *)

Lemma update_same_filter c e s :
  same_filter s (self_of (update_traffic_lights c e s)).
Proof.
  unfold same_filter, update_traffic_lights, complete_yellow, alternate_direction.
  exec; repeat split.
Qed.

Lemma reset_same_filter e s : same_filter s (self_of (reset e s)).
Proof. rewrite reset_eq. repeat split. Qed.

Lemma send_commands_same_filter la lb alert e s :
  same_filter s (self_of (send_commands la lb alert e s)).
Proof. unfold same_filter. rewrite send_commands_eq. exec; repeat split. Qed.

(** X11. [update_traffic_lights], the reset handler and [send_commands]
    never touch the stabiliser: history, confirmed count, pending count and
    pending timer are as before.  In particular a reset keeps the confirmed
    count, so the next frame acts on it again. *)
Theorem engine_leaves_filter_alone c la lb alert e s :
  same_filter s (self_of (update_traffic_lights c e s)) /\
  same_filter s (self_of (reset e s)) /\
  same_filter s (self_of (send_commands la lb alert e s)).
Proof.
  split; [apply update_same_filter|].
  split; [apply reset_same_filter | apply send_commands_same_filter].
Qed.

(** X12. [get_confirmed_car_count] never reaches the port and never touches
    the lights, the mode flags, the direction or the engine's timers; it
    returns the confirmed count it has just stored. *)
Theorem stabiliser_leaves_engine_alone raw e s :
  let r := get_confirmed_car_count raw e s in
  result r = Return (confirmed_car_count (self_of r)) /\
  tx r = [] /\
  lights (self_of r) = lights s /\
  is_yellow_transition (self_of r) = is_yellow_transition s /\
  is_high_traffic_mode (self_of r) = is_high_traffic_mode s /\
  high_traffic_direction (self_of r) = high_traffic_direction s /\
  yellow_start_time (self_of r) = yellow_start_time s /\
  high_traffic_start_time (self_of r) = high_traffic_start_time s /\
  last_command_time (self_of r) = last_command_time s.
Proof.
  unfold get_confirmed_car_count. exec; repeat split.
Qed.

(** ** From cross traffic to the AI side *)

(** X10. Normal mode with cross traffic on green: a count of one to seven
    cars puts B on yellow ([ARBY]), and the first call that comes at least
    [YELLOW_DURATION] later, still with one to seven cars, gives A the
    green ([AGBR]) and ends the clearance.  With a working link these are
    the only two writes. *)
Theorem cars_get_green_after_clearance c1 c2 e1 e2 s :
  normal_mode s ->
  lights s = (Red, Green) ->
  (1 <= c1 < HIGH_TRAFFIC_THRESHOLD)%Z ->
  (1 <= c2 < HIGH_TRAFFIC_THRESHOLD)%Z ->
  link_ok e1 = true ->
  link_ok e2 = true ->
  (YELLOW_DURATION <= clock e2 - clock e1)%Q ->
  let r1 := update_traffic_lights c1 e1 s in
  let r2 := update_traffic_lights c2 e2 (self_of r1) in
  tx r1 = [encode (command Red Yellow false)] /\
  lights (self_of r1) = (Red, Yellow) /\
  is_yellow_transition (self_of r1) = true /\
  tx r2 = [encode (command Green Red false)] /\
  lights (self_of r2) = (Green, Red) /\
  normal_mode (self_of r2).
Proof.
  intros [Hy Hh] Hl Hc1 Hc2 Hk1 Hk2 Ht r1 r2.
  apply lights_eq in Hl. destruct Hl as [Ha Hb].
  assert (H1 : r1 = mkRes (Return tt)
                      (with_yellow_start_time (Some (clock e1))
                         (with_is_yellow_transition true (sent Red Yellow e1 s)))
                      [encode (command Red Yellow false)]).
  { unfold r1, update_traffic_lights.
    rewrite bind_ask, bind_gets, Hy.
    exec; count_tests; unfold lights in *;
      solve [reflexivity | discriminate | congruence | exfalso; lia]. }
  unfold r2. rewrite H1. cbn [self_of tx].
  set (s1 := with_yellow_start_time (Some (clock e1))
               (with_is_yellow_transition true (sent Red Yellow e1 s))).
  rewrite (@update_in_clearance c2 e2 s1 (clock e1) eq_refl eq_refl).
  unfold s1. clear s1.
  apply Qle_bool_iff in Ht. rewrite Ht.
  unfold complete_yellow, normal_mode.
  exec; count_tests; unfold lights in *; fields;
    solve [repeat split; congruence | discriminate | congruence | exfalso; lia].
Qed.

Lemma cars_get_green_after_clearance_witness :
  let r1 := update_traffic_lights 3 (at_time 0 true) (init 0) in
  let r2 := update_traffic_lights 5 (at_time 2 true) (self_of r1) in
  tx r1 = [encode (command Red Yellow false)] /\
  lights (self_of r1) = (Red, Yellow) /\
  is_yellow_transition (self_of r1) = true /\
  tx r2 = [encode (command Green Red false)] /\
  lights (self_of r2) = (Green, Red) /\
  normal_mode (self_of r2).
Proof.
  apply (@cars_get_green_after_clearance 3 5 (at_time 0 true) (at_time 2 true) (init 0));
    try reflexivity.
  - split; reflexivity.
  - unfold HIGH_TRAFFIC_THRESHOLD; lia.
  - unfold HIGH_TRAFFIC_THRESHOLD; lia.
  - unfold Qle; cbn; lia.
Defined.

(* ================================================================== *)
(** * Further properties of the stabiliser *)

(** ** The window *)

Lemma push_sample_length h x :
  (List.length h <= DETECTION_HISTORY_SIZE)%nat ->
  (List.length (push_sample h x) <= DETECTION_HISTORY_SIZE)%nat.
Proof.
  intros Hl. unfold push_sample.
  destruct (Nat.ltb_spec DETECTION_HISTORY_SIZE (List.length (h ++ [x]))) as [H|H];
    [|exact H].
  rewrite length_app in H. cbn [List.length] in H.
  destruct h as [|y h]; cbn [app tl List.length] in *.
  - unfold DETECTION_HISTORY_SIZE in *. lia.
  - rewrite length_app. cbn [List.length]. lia.
Qed.

Lemma push_sample_nonempty h x : push_sample h x <> [].
Proof.
  destruct (push_sample_snoc h x) as [h' ->]. destruct h'; discriminate.
Qed.

Lemma call_keeps_window_bounded c e s :
  (List.length (detection_history s) <= DETECTION_HISTORY_SIZE)%nat ->
  (List.length (detection_history (self_of (call_method c e s)))
   <= DETECTION_HISTORY_SIZE)%nat.
Proof.
  intros H. destruct c as [|raw|n|]; [cbn [call_method] | | cbn [call_method] ..].
  - unfold startup.
    destruct (send_commands_same_filter Red Green false e s) as [-> _]. exact H.
  - destruct (call_observe_eq raw e s) as [-> _].
    destruct (observe_spec raw e s) as (_ & _ & -> & _).
    apply push_sample_length. exact H.
  - destruct (update_same_filter n e s) as [-> _]. exact H.
  - destruct (reset_same_filter e s) as [-> _]. exact H.
Qed.

(** X13. In a run the detection history never holds more than
    [DETECTION_HISTORY_SIZE] samples. *)
Theorem window_never_exceeds_capacity log s :
  reaches log s ->
  (List.length (detection_history s) <= DETECTION_HISTORY_SIZE)%nat.
Proof.
  induction 1 as [t | log s c e _ IH].
  - cbn. unfold DETECTION_HISTORY_SIZE. lia.
  - apply call_keeps_window_bounded. exact IH.
Qed.

Lemma window_never_exceeds_capacity_witness :
  (List.length (detection_history ex_pending_two) <= DETECTION_HISTORY_SIZE)%nat.
Proof.
  apply (@window_never_exceeds_capacity [] ex_pending_two).
  apply reaches_observe_all. constructor.
Defined.

(** ** Rounding the mean *)

Lemma round_div_nearest s n :
  (0 < n)%Z -> (2 * Z.abs (n * round_div s n - s) <= n)%Z.
Proof.
  intros Hn. unfold round_div. cbv zeta.
  pose proof (Z.div_mod s n ltac:(lia)) as Hdm.
  pose proof (Z.mod_pos_bound s n Hn) as Hb.
  destruct (Z.ltb_spec (2 * (s mod n)) n); [nia|].
  destruct (Z.ltb_spec n (2 * (s mod n))); [nia|].
  destruct (Z.even (s / n)); nia.
Qed.

Lemma round_div_range s n lo hi :
  (0 < n)%Z -> (n * lo <= s <= n * hi)%Z -> (lo <= round_div s n <= hi)%Z.
Proof.
  intros Hn Hs. unfold round_div. cbv zeta.
  pose proof (Z.div_mod s n ltac:(lia)) as Hdm.
  pose proof (Z.mod_pos_bound s n Hn) as Hb.
  destruct (Z.ltb_spec (2 * (s mod n)) n); [nia|].
  destruct (Z.ltb_spec n (2 * (s mod n))); [nia|].
  destruct (Z.even (s / n)); nia.
Qed.

Lemma sum_range h lo hi :
  Forall (fun x => (lo <= x <= hi)%Z) h ->
  (Z.of_nat (List.length h) * lo <= sum h <= Z.of_nat (List.length h) * hi)%Z.
Proof.
  induction 1 as [|x h Hx _ IH].
  - cbn. lia.
  - rewrite sum_cons. cbn [List.length]. lia.
Qed.

(** X14. The smoothed count of a non-empty window is its mean rounded to a
    nearest integer (it differs from the mean by at most one half), and it
    lies between any two bounds that hold every sample of the window. *)
Theorem smoothed_is_rounded_mean h lo hi :
  h <> [] ->
  Forall (fun x => (lo <= x <= hi)%Z) h ->
  let n := Z.of_nat (List.length h) in
  (2 * Z.abs (n * smoothed h - sum h) <= n)%Z /\
  (lo <= smoothed h <= hi)%Z.
Proof.
  intros Hne Hr n.
  assert (Hn : (0 < n)%Z) by (unfold n; destruct h; [congruence | cbn; lia]).
  split.
  - apply round_div_nearest. exact Hn.
  - apply round_div_range; [exact Hn | apply sum_range; exact Hr].
Qed.

Lemma smoothed_is_rounded_mean_witness :
  let h := [0; 9; 0; 0]%Z in
  let n := Z.of_nat (List.length h) in
  (2 * Z.abs (n * smoothed h - sum h) <= n)%Z /\
  (0 <= smoothed h <= 9)%Z.
Proof.
  apply (@smoothed_is_rounded_mean [0; 9; 0; 0]%Z 0 9).
  - discriminate.
  - repeat constructor; lia.
Defined.

(** ** Confirmation *)

(** X15. The confirmed count changes only to the candidate that was already
    pending, which is the smoothed count of the window with the new sample,
    and only when that candidate has been pending for at least its
    confirmation delay (1.5 s from 8 cars on, 3 s below). *)
Theorem confirmed_changes_only_after_delay raw e s :
  let s' := self_of (get_confirmed_car_count raw e s) in
  confirmed_car_count s' <> confirmed_car_count s ->
  confirmed_car_count s' = pending_car_count s /\
  confirmed_car_count s' = smoothed (push_sample (detection_history s) raw) /\
  (required_time (confirmed_car_count s') <= clock e - last_state_change_time s)%Q.
Proof.
  intros s' Hne.
  destruct (observe_spec raw e s) as (_ & _ & _ & Hcases). fold s' in Hcases.
  destruct Hcases as [H|[H|[H|H]]].
  - destruct H as (_ & _ & E & _). contradiction.
  - destruct H as (_ & _ & E & _). contradiction.
  - destruct H as (_ & Ep & Hq & Ec & _). rewrite Ec. auto.
  - destruct H as (_ & _ & _ & E & _). contradiction.
Qed.

Lemma confirmed_changes_only_after_delay_witness :
  let e := at_time 3 true in
  let s' := self_of (get_confirmed_car_count 2 e ex_pending_two) in
  confirmed_car_count s' = pending_car_count ex_pending_two /\
  confirmed_car_count s' = smoothed (push_sample (detection_history ex_pending_two) 2) /\
  (required_time (confirmed_car_count s') <=
   clock e - last_state_change_time ex_pending_two)%Q.
Proof.
  apply (@confirmed_changes_only_after_delay 2 (at_time 3 true) ex_pending_two).
  vm_compute. discriminate.
Defined.

Lemma push_sample_constant d :
  push_sample (repeat d DETECTION_HISTORY_SIZE) d = repeat d DETECTION_HISTORY_SIZE.
Proof. reflexivity. Qed.

(** X16. Once the window is full of one count [d], two samples of [d] whose
    calls are at least the confirmation delay of [d] apart leave [d]
    confirmed, whatever was confirmed or pending before (the clock not
    running backwards between the start of the pending timer and the first
    of the two calls). *)
Theorem sustained_count_is_confirmed d e1 e2 s :
  detection_history s = repeat d DETECTION_HISTORY_SIZE ->
  (last_state_change_time s <= clock e1)%Q ->
  (required_time d <= clock e2 - clock e1)%Q ->
  let r1 := get_confirmed_car_count d e1 s in
  let r2 := get_confirmed_car_count d e2 (self_of r1) in
  result r2 = Return d /\
  confirmed_car_count (self_of r2) = d /\
  detection_history (self_of r2) = repeat d DETECTION_HISTORY_SIZE.
Proof.
  intros Hh Hmono Hgap r1 r2.
  destruct (observe_spec d e1 s) as (_ & _ & Hh1 & Hc1). fold r1 in Hh1, Hc1.
  rewrite Hh, push_sample_constant in Hh1, Hc1.
  rewrite smoothed_repeat in Hc1 by (unfold DETECTION_HISTORY_SIZE; lia).
  destruct (observe_spec d e2 (self_of r1)) as (Hr2 & _ & Hh2 & Hc2).
  fold r2 in Hr2, Hh2, Hc2.
  rewrite Hh1, push_sample_constant in Hh2, Hc2.
  rewrite smoothed_repeat in Hc2 by (unfold DETECTION_HISTORY_SIZE; lia).
  assert (Hd : confirmed_car_count (self_of r2) = d).
  { destruct Hc2 as [H2|[H2|[H2|H2]]].
    - destruct H2 as (_ & E & Ec & _). congruence.
    - destruct H2 as (_ & N & _). exfalso.
      destruct Hc1 as [H1|[H1|[H1|H1]]].
      + destruct H1 as (_ & E1 & _ & Ep & _). congruence.
      + destruct H1 as (_ & _ & _ & Ep & _). congruence.
      + destruct H1 as (_ & _ & _ & _ & Ep & _). congruence.
      + destruct H1 as (_ & E1 & _ & _ & Ep & _). congruence.
    - destruct H2 as (_ & _ & _ & Ec & _). exact Ec.
    - destruct H2 as (_ & _ & Hq & Ec & _).
      destruct Hc1 as [H1|[H1|[H1|H1]]].
      + destruct H1 as (_ & E1 & Ec1 & _). congruence.
      + destruct H1 as (_ & _ & _ & _ & Et). exfalso. apply Hq.
        rewrite Et. exact Hgap.
      + destruct H1 as (_ & _ & _ & Ec1 & _). congruence.
      + destruct H1 as (_ & _ & _ & _ & _ & Et). exfalso. apply Hq.
        rewrite Et. eapply Qle_trans; [exact Hgap|].
        unfold Qminus. apply Qplus_le_r. apply Qopp_le_compat. exact Hmono. }
  repeat split; auto. rewrite Hr2, Hd. reflexivity.
Qed.

Lemma sustained_count_is_confirmed_witness :
  let r1 := get_confirmed_car_count 2 (at_time 1 true) ex_pending_two in
  let r2 := get_confirmed_car_count 2 (at_time 4 true) (self_of r1) in
  result r2 = Return 2%Z /\
  confirmed_car_count (self_of r2) = 2%Z /\
  detection_history (self_of r2) = repeat 2%Z DETECTION_HISTORY_SIZE.
Proof.
  apply (@sustained_count_is_confirmed 2 (at_time 1 true) (at_time 4 true)
           ex_pending_two).
  - vm_compute. reflexivity.
  - vm_compute. discriminate.
  - vm_compute. discriminate.
Defined.

(** X17. A sample equal to the count the stabiliser has settled on changes
    nothing: the call returns that count, and window, confirmed count,
    pending count and pending timer are as before (the timer is not
    started again). *)
Theorem settled_sample_changes_nothing c e s :
  settled_on c s ->
  let r := get_confirmed_car_count c e s in
  result r = Return c /\ same_filter s (self_of r).
Proof.
  intros (Hh & Hc & Hp) r.
  destruct (observe_spec c e s) as (Hr & _ & Hh' & Hcases). fold r in Hr, Hh', Hcases.
  rewrite Hh, push_sample_constant in Hh', Hcases.
  rewrite smoothed_repeat in Hcases by (unfold DETECTION_HISTORY_SIZE; lia).
  unfold same_filter. rewrite Hr, Hh', Hh, Hc, Hp.
  destruct Hcases as [H|[H|[H|H]]].
  - destruct H as (_ & _ & E1 & E2 & E3). rewrite E1, E2, E3, Hc. auto.
  - destruct H as (_ & N & _). congruence.
  - destruct H as (_ & _ & _ & E1 & E2 & E3). rewrite E1, E2, E3. auto.
  - destruct H as (_ & _ & _ & E1 & E2 & E3). rewrite E1, E2, E3, Hc, Hp. auto.
Qed.

Lemma settled_sample_changes_nothing_witness :
  let r := get_confirmed_car_count 0 (at_time 20 true) ex_settled_empty in
  result r = Return 0%Z /\ same_filter ex_settled_empty (self_of r).
Proof.
  apply (@settled_sample_changes_nothing 0 (at_time 20 true) ex_settled_empty).
  unfold settled_on. vm_compute. repeat split.
Defined.

(** ** Counts that are valid *)

Lemma push_sample_forall (P : Z -> Prop) h x :
  Forall P h -> P x -> Forall P (push_sample h x).
Proof.
  intros Hh Hx. unfold push_sample.
  assert (Hall : Forall P (h ++ [x])) by (apply Forall_app; auto).
  destruct (DETECTION_HISTORY_SIZE <? List.length (h ++ [x]))%nat; [|exact Hall].
  destruct (h ++ [x]); [constructor|]. inversion Hall; assumption.
Qed.

Lemma observe_keeps_nonneg raw e s :
  filter_nonneg s -> (0 <= raw)%Z ->
  filter_nonneg (self_of (get_confirmed_car_count raw e s)).
Proof.
  intros (Hh & Hc & Hp) Hraw.
  destruct (observe_spec raw e s) as (_ & _ & Hh' & Hcases).
  assert (Hwin : Forall (fun x => (0 <= x)%Z) (push_sample (detection_history s) raw))
    by (apply push_sample_forall; assumption).
  assert (Hsm : (0 <= smoothed (push_sample (detection_history s) raw))%Z).
  { unfold smoothed.
    assert (Hn : (0 < Z.of_nat (List.length (push_sample (detection_history s) raw)))%Z).
    { pose proof (push_sample_nonempty (detection_history s) raw) as Hne.
      destruct (push_sample (detection_history s) raw); [congruence | cbn; lia]. }
    unfold round_div. cbv zeta.
    assert (Hs : (0 <= sum (push_sample (detection_history s) raw))%Z).
    { clear -Hwin. induction Hwin as [|x h Hx _ IH]; [cbn; lia|].
      rewrite sum_cons. lia. }
    pose proof (Z.div_pos _ _ Hs Hn).
    destruct (2 * _ <? _)%Z; [lia|]. destruct (_ <? 2 * _)%Z; [lia|].
    destruct (Z.even _); lia. }
  unfold filter_nonneg. rewrite Hh'. split; [exact Hwin|].
  destruct Hcases as [H|[H|[H|H]]].
  - destruct H as (_ & _ & -> & -> & _). auto.
  - destruct H as (_ & _ & -> & -> & _). auto.
  - destruct H as (_ & _ & _ & -> & -> & _). auto.
  - destruct H as (_ & _ & _ & -> & -> & _). auto.
Qed.

(** X18. Fed a count that is not negative, a stabiliser whose fields hold no
    negative number keeps them so and returns a count that is not
    negative. *)
Theorem nonnegative_samples_nonnegative_counts raw e s :
  filter_nonneg s ->
  (0 <= raw)%Z ->
  let r := get_confirmed_car_count raw e s in
  filter_nonneg (self_of r) /\
  exists n, result r = Return n /\ (0 <= n)%Z.
Proof.
  intros Hs Hraw r.
  pose proof (observe_keeps_nonneg e Hs Hraw) as Hs'. fold r in Hs'.
  split; [exact Hs'|].
  destruct (observe_spec raw e s) as (Hr & _). fold r in Hr.
  exists (confirmed_car_count (self_of r)). split; [exact Hr | apply Hs'].
Qed.

Lemma nonnegative_samples_nonnegative_counts_witness :
  let r := get_confirmed_car_count 2 (at_time 3 true) ex_pending_two in
  filter_nonneg (self_of r) /\
  exists n, result r = Return n /\ (0 <= n)%Z.
Proof.
  apply (@nonnegative_samples_nonnegative_counts 2 (at_time 3 true) ex_pending_two).
  - unfold filter_nonneg. vm_compute. repeat split.
    all: repeat constructor.
    all: discriminate.
  - lia.
Defined.

(* ================================================================== *)
(** * Further properties of the loop *)

(** ** Counting cars *)

Lemma py_int_zero x : py_int x = 0%Z <-> (-1 < x < 1)%Q.
Proof.
  unfold py_int. destruct x as [n d]. cbn [Qnum Qden].
  rewrite Z.quot_small_iff by discriminate.
  unfold Qlt. cbn. lia.
Qed.

Lemma count_cars_cons det dets :
  count_cars (det :: dets) =
  ((if (py_int (class_number det) =? 0)%Z then 1 else 0) + count_cars dets)%Z.
Proof.
  unfold count_cars. cbn [filter].
  destruct (py_int (class_number det) =? 0)%Z; cbn [map].
  - apply sum_cons.
  - lia.
Qed.

Lemma count_cars_nonneg dets : (0 <= count_cars dets)%Z.
Proof.
  induction dets as [|det dets IH]; [cbn; lia|].
  rewrite count_cars_cons. destruct (_ =? _)%Z; lia.
Qed.

(** X19. [count_cars] counts the detections whose class number lies
    strictly between -1 and 1 (those [int] truncates to class 0): the count
    is never negative, never more than the number of detections, and adds
    up over concatenated detection lists. *)
Theorem count_cars_counts_class_zero det dets dets' :
  (0 <= count_cars dets <= Z.of_nat (List.length dets))%Z /\
  count_cars (dets ++ dets') = (count_cars dets + count_cars dets')%Z /\
  ((-1 < class_number det < 1)%Q ->
   count_cars (det :: dets) = (1 + count_cars dets)%Z) /\
  (~ (-1 < class_number det < 1)%Q ->
   count_cars (det :: dets) = count_cars dets).
Proof.
  repeat split.
  - apply count_cars_nonneg.
  - induction dets as [|d ds IH]; [cbn; lia|].
    rewrite count_cars_cons. cbn [List.length]. destruct (_ =? _)%Z; lia.
  - induction dets as [|d ds IH]; [reflexivity|].
    cbn [app]. rewrite !count_cars_cons, IH. lia.
  - intros H. apply py_int_zero in H. rewrite count_cars_cons, H. reflexivity.
  - intros H. rewrite count_cars_cons.
    destruct (Z.eqb_spec (py_int (class_number det)) 0) as [E|E]; [|lia].
    apply py_int_zero in E. contradiction.
Qed.

Lemma count_cars_counts_class_zero_witness :
  let det := mkDetection [10; 20; 30; 40; 9 # 10] 0 in
  let other := mkDetection [10; 20; 30; 40; 8 # 10] 2 in
  (0 <= count_cars [other] <= Z.of_nat (List.length [other]))%Z /\
  count_cars ([other] ++ [det]) = (count_cars [other] + count_cars [det])%Z /\
  ((-1 < class_number det < 1)%Q ->
   count_cars (det :: [other]) = (1 + count_cars [other])%Z) /\
  (~ (-1 < class_number det < 1)%Q ->
   count_cars (det :: [other]) = count_cars [other]).
Proof.
  exact (@count_cars_counts_class_zero
           (mkDetection [10; 20; 30; 40; 9 # 10] 0)
           [mkDetection [10; 20; 30; 40; 8 # 10] 2]
           [mkDetection [10; 20; 30; 40; 9 # 10] 0]).
Defined.

(** ** The loop stays within the runs *)

Lemma run_loop_reaches turns : forall log s,
  reaches log s ->
  reaches (log ++ snd (run_loop turns s)) (snd (fst (run_loop turns s))).
Proof.
  induction turns as [|it rest IH]; intros log s H; cbn [run_loop].
  - cbn. rewrite app_nil_r. exact H.
  - destruct (grabbed it); cbn [negb]; [|cbn; rewrite app_nil_r; exact H].
    set (raw := count_cars (detections it)).
    pose proof (reaches_call (CallObserve raw) (e_count it) H) as H1.
    destruct (call_observe_eq raw (e_count it) s) as [Es Et].
    rewrite Es, Et, app_nil_r in H1.
    destruct (observe_spec raw (e_count it) s) as (Hr1 & Ht1 & _).
    rewrite Hr1, Ht1. cbn [app].
    set (s1 := self_of (get_confirmed_car_count raw (e_count it) s)) in *.
    pose proof (reaches_call (CallUpdate (confirmed_car_count s1)) (e_lights it) H1)
      as H2.
    cbn [call_method] in H2.
    set (r2 := update_traffic_lights (confirmed_car_count s1) (e_lights it) s1) in *.
    destruct (result r2) as [[]|x]; [|cbn; exact H2].
    destruct (Z.land (key_code it) 255 =? ord "q")%Z; [cbn; exact H2|].
    set (r3 := if (Z.land (key_code it) 255 =? ord "r")%Z
               then reset (e_key it) (self_of r2)
               else mkRes (Return tt) (self_of r2) []).
    assert (H3 : reaches ((log ++ tx r2) ++ tx r3) (self_of r3)).
    { unfold r3. destruct (Z.land (key_code it) 255 =? ord "r")%Z.
      - exact (reaches_call CallReset (e_key it) H2).
      - cbn. rewrite app_nil_r. exact H2. }
    destruct (result r3) as [[]|x].
    + specialize (IH _ _ H3).
      destruct (run_loop rest (self_of r3)) as [[ex s'] out]. cbn in *.
      rewrite <- !app_assoc in IH. exact IH.
    + cbn. rewrite <- app_assoc in H3. exact H3.
Qed.

(** X20. Whatever the frames, detections, clock readings, link faults and
    keys, [run] only passes through states that the calls of the engine
    reach: the object it ends with records one of the four legal light
    pairs, and everything it wrote to the port is a token or the bare alert
    line. *)
Theorem run_stays_within_runs e turns t :
  let log := snd (run e turns (init t)) in
  let s := snd (fst (run e turns (init t))) in
  reaches log s /\
  In (lights s) legal_pairs /\
  Forall (fun b => is_token b = true \/ b = bare_alert) log.
Proof.
  assert (H : reaches (snd (run e turns (init t))) (snd (fst (run e turns (init t))))).
  { unfold run.
    pose proof (reaches_call CallStartup e (reaches_init t)) as H0.
    cbn [call_method app] in H0.
    assert (Hr : result (startup e (init t)) = Return tt)
      by (rewrite startup_eq; destruct (pair_eqb _ _); reflexivity).
    rewrite Hr.
    apply (run_loop_reaches turns) in H0.
    destruct (run_loop turns (self_of (startup e (init t)))) as [[ex s'] out].
    exact H0. }
  cbv zeta. split; [exact H|]. split.
  - apply safe_pair_legal. exact (reaches_safe_pair H).
  - exact (reaches_log_wellformed H).
Qed.

(** ** Only counts that are not negative *)

Lemma same_filter_nonneg s s' : same_filter s s' -> filter_nonneg s -> filter_nonneg s'.
Proof.
  intros (Eh & Ec & Ep & _) (Hh & Hc & Hp). unfold filter_nonneg.
  rewrite Eh, Ec, Ep. auto.
Qed.

Lemma run_loop_nonneg turns : forall s,
  filter_nonneg s -> filter_nonneg (snd (fst (run_loop turns s))).
Proof.
  induction turns as [|it rest IH]; intros s H; cbn [run_loop].
  - exact H.
  - destruct (grabbed it); cbn [negb]; [|exact H].
    pose proof (@observe_keeps_nonneg (count_cars (detections it)) (e_count it) s H
                  (count_cars_nonneg _)) as H1.
    destruct (observe_spec (count_cars (detections it)) (e_count it) s) as (Hr1 & _).
    rewrite Hr1.
    set (s1 := self_of (get_confirmed_car_count (count_cars (detections it))
                          (e_count it) s)) in *.
    pose proof (same_filter_nonneg
                  (update_same_filter (confirmed_car_count s1) (e_lights it) s1) H1)
      as H2.
    set (r2 := update_traffic_lights (confirmed_car_count s1) (e_lights it) s1) in *.
    destruct (result r2) as [[]|x]; [|exact H2].
    destruct (Z.land (key_code it) 255 =? ord "q")%Z; [exact H2|].
    set (r3 := if (Z.land (key_code it) 255 =? ord "r")%Z
               then reset (e_key it) (self_of r2)
               else mkRes (Return tt) (self_of r2) []).
    assert (H3 : filter_nonneg (self_of r3)).
    { unfold r3. destruct (Z.land (key_code it) 255 =? ord "r")%Z.
      - exact (same_filter_nonneg (reset_same_filter (e_key it) (self_of r2)) H2).
      - exact H2. }
    destruct (result r3) as [[]|x]; [|exact H3].
    specialize (IH _ H3).
    destruct (run_loop rest (self_of r3)) as [[ex s'] out]. exact IH.
Qed.

(** X21. In [run] the stabiliser only ever sees the counts of [count_cars],
    so its history, its pending count and the confirmed count that drives
    the lights are never negative. *)
Theorem run_counts_never_negative e turns t :
  filter_nonneg (snd (fst (run e turns (init t)))).
Proof.
  unfold run.
  assert (Hr : result (startup e (init t)) = Return tt)
    by (rewrite startup_eq; destruct (pair_eqb _ _); reflexivity).
  rewrite Hr.
  assert (H0 : filter_nonneg (self_of (startup e (init t)))).
  { apply (same_filter_nonneg (send_commands_same_filter Red Green false e (init t))).
    repeat split; [constructor | cbn; lia | cbn; lia]. }
  apply (run_loop_nonneg turns) in H0.
  destruct (run_loop turns (self_of (startup e (init t)))) as [[ex s'] out].
  exact H0.
Qed.

(** ** Leaving the loop *)

(** X22. Once the loop has ended on the turns it was given (no frame, key
    [q], or an exception that escaped), further turns change nothing:
    neither the object nor the port sees them. *)
Theorem loop_ends_for_good turns more s :
  fst (fst (run_loop turns s)) <> StillRunning ->
  run_loop (turns ++ more) s = run_loop turns s.
Proof.
  revert s. induction turns as [|it rest IH]; intros s H.
  - cbn in H. congruence.
  - cbn [app run_loop] in *.
    destruct (grabbed it); cbn [negb] in *; [|reflexivity].
    destruct (result (get_confirmed_car_count _ _ s)) as [n|x]; [|reflexivity].
    destruct (result (update_traffic_lights n _ _)) as [[]|x]; [|reflexivity].
    destruct (Z.land (key_code it) 255 =? ord "q")%Z; [reflexivity|].
    match goal with
    | |- context [result ?r3] => destruct (result r3) as [[]|x] eqn:E3
    end; [|reflexivity].
    match type of H with
    | context [run_loop rest ?s3] => specialize (IH s3)
    end.
    destruct (run_loop rest _) as [[ex s'] out] eqn:Er.
    cbn [fst] in H, IH. rewrite (IH H). reflexivity.
Qed.

Lemma loop_ends_for_good_witness :
  run_loop ([turn_at 1 [] (ord "q")] ++ [turn_at 2 [mkDetection [] 0] (-1)]) (init 0) =
  run_loop [turn_at 1 [] (ord "q")] (init 0).
Proof.
  apply (@loop_ends_for_good [turn_at 1 [] (ord "q")]
           [turn_at 2 [mkDetection [] 0] (-1)] (init 0)).
  vm_compute. discriminate.
Defined.

(** X23. Key codes are compared on their low byte: a code and the same code
    plus any multiple of 256 act alike. *)
Theorem key_codes_compare_low_byte it n rest s :
  run_loop (with_key_code (key_code it + 256 * n) it :: rest) s =
  run_loop (it :: rest) s.
Proof.
  assert (Hland : Z.land (key_code it + 256 * n) 255 = Z.land (key_code it) 255).
  { change 255%Z with (Z.ones 8). rewrite !Z.land_ones by lia.
    change (2 ^ 8)%Z with 256%Z.
    rewrite Z.mul_comm, Z.mod_add by lia. reflexivity. }
  cbn [run_loop with_key_code grabbed detections e_count e_lights key_code e_key].
  rewrite Hland. reflexivity.
Qed.

(** ** An empty road *)

Lemma smoothed_zeros h :
  h <> [] -> Forall (fun x => x = 0%Z) h -> smoothed h = 0%Z.
Proof.
  intros Hne Hz.
  assert (Hr : Forall (fun x => (0 <= x <= 0)%Z) h)
    by (revert Hz; apply Forall_impl; intros; lia).
  assert (Hn : (0 < Z.of_nat (List.length h))%Z)
    by (destruct h; [congruence | cbn; lia]).
  pose proof (@round_div_range (sum h) _ 0 0 Hn (sum_range Hr)) as Hb.
  unfold smoothed. lia.
Qed.

Lemma observe_empty_road e s :
  empty_road s -> empty_road (self_of (get_confirmed_car_count 0 e s)).
Proof.
  intros (Hh & Hc & [Hy Hm] & Hl).
  destruct (observe_spec 0 e s) as (_ & _ & Hh' & Hcases).
  destruct (observe_frame 0 e s) as (_ & Hl' & Hm' & Hy' & _).
  assert (Hwin : Forall (fun x => x = 0%Z) (push_sample (detection_history s) 0))
    by (apply push_sample_forall; auto).
  rewrite (smoothed_zeros (push_sample_nonempty _ _) Hwin), Hc in Hcases.
  unfold empty_road, normal_mode. rewrite Hh', Hl', Hm', Hy'.
  repeat split; auto.
  unfold HIGH_TRAFFIC_THRESHOLD in Hcases.
  destruct Hcases as [H|[H|[H|H]]].
  - destruct H as (_ & _ & E & _). exact E.
  - destruct H as ([H|H] & _); [lia | congruence].
  - destruct H as ([H|H] & _); [lia | congruence].
  - destruct H as ([H|H] & _); [lia | congruence].
Qed.

Lemma update_empty_road e s :
  empty_road s -> update_traffic_lights 0 e s = mkRes (Return tt) s [].
Proof.
  intros (_ & _ & [Hy Hm] & Hl). apply lights_eq in Hl. destruct Hl as [Ha Hb].
  unfold update_traffic_lights.
  rewrite bind_ask, bind_gets, Hy.
  exec; count_tests; solve [reflexivity | discriminate | congruence | exfalso; lia].
Qed.

Lemma reset_empty_road e s :
  empty_road s -> empty_road (self_of (reset e s)) /\ tx (reset e s) = [].
Proof.
  intros (Hh & Hc & _ & _). rewrite reset_eq. repeat split; assumption.
Qed.

Lemma run_loop_empty_road turns : forall s,
  Forall (fun it => count_cars (detections it) = 0%Z) turns ->
  empty_road s ->
  snd (run_loop turns s) = [] /\
  empty_road (snd (fst (run_loop turns s))) /\
  (forall x, fst (fst (run_loop turns s)) <> Escaped x).
Proof.
  induction turns as [|it rest IH]; intros s Ht Hs; cbn [run_loop].
  - split; [reflexivity|]. split; [exact Hs | discriminate].
  - inversion Ht as [|? ? H0 Hrest]; subst.
    destruct (grabbed it); cbn [negb];
      [|split; [reflexivity|]; split; [exact Hs | discriminate]].
    rewrite H0.
    pose proof (observe_empty_road (e_count it) Hs) as H1.
    destruct (observe_spec 0 (e_count it) s) as (Hr1 & Ht1 & _).
    rewrite Hr1, Ht1.
    assert (Hc1 : confirmed_car_count
                    (self_of (get_confirmed_car_count 0 (e_count it) s)) = 0%Z)
      by apply H1.
    rewrite Hc1.
    rewrite (@update_empty_road (e_lights it) _ H1).
    cbn [result self_of tx app].
    destruct (Z.land (key_code it) 255 =? ord "q")%Z;
      [split; [reflexivity|]; split; [exact H1 | discriminate]|].
    destruct (Z.land (key_code it) 255 =? ord "r")%Z.
    + destruct (@reset_empty_road (e_key it) _ H1) as [H3 Ht3].
      rewrite reset_eq in *. cbn [result self_of tx] in *.
      specialize (IH _ Hrest H3).
      destruct (run_loop rest _) as [[ex s'] out]. cbn in *. exact IH.
    + cbn [result self_of tx].
      specialize (IH _ Hrest H1).
      destruct (run_loop rest _) as [[ex s'] out]. cbn in *. exact IH.
Qed.

(** X24. As long as no car is detected, [run] writes nothing to the port at
    all, not even at start-up: the lights stay at (Red, Green) in normal
    mode, the confirmed count stays 0 and no exception escapes, whatever
    the timing, the keys and the state of the link. *)
Theorem empty_road_stays_silent e turns t :
  Forall (fun it => count_cars (detections it) = 0%Z) turns ->
  snd (run e turns (init t)) = [] /\
  empty_road (snd (fst (run e turns (init t)))) /\
  (forall x, fst (fst (run e turns (init t))) <> Escaped x).
Proof.
  intros Ht. unfold run. rewrite startup_eq.
  change (pair_eqb (lights (init t)) (Red, Green)) with true. cbv iota.
  cbn [result self_of tx].
  assert (H0 : empty_road (init t))
    by (repeat split; constructor).
  destruct (run_loop_empty_road Ht H0) as (Ho & Hs & Hx).
  destruct (run_loop turns (init t)) as [[ex s'] out]. cbn in *.
  subst out. split; [reflexivity|]. split; [exact Hs | exact Hx].
Qed.

Lemma empty_road_stays_silent_witness :
  let turns := [turn_at 1 [] (-1); turn_at 2 [mkDetection [] 2] (ord "r");
                turn_at 9 [] (-1)] in
  snd (run (at_time 0 false) turns (init 0)) = [] /\
  empty_road (snd (fst (run (at_time 0 false) turns (init 0)))) /\
  (forall x, fst (fst (run (at_time 0 false) turns (init 0))) <> Escaped x).
Proof.
  apply (@empty_road_stays_silent (at_time 0 false)
           [turn_at 1 [] (-1); turn_at 2 [mkDetection [] 2] (ord "r");
            turn_at 9 [] (-1)] 0).
  repeat constructor.
Defined.

(* ================================================================== *)
(** * The frame rate *)

Lemma calculate_fps_all_cons t rest f :
  calculate_fps_all (t :: rest) f =
  ((if Qle_bool 1 (t - fps_start_time f) then [current_fps (calculate_fps t f)] else [])
     ++ fst (calculate_fps_all rest (calculate_fps t f)),
   snd (calculate_fps_all rest (calculate_fps t f))).
Proof.
  cbn [calculate_fps_all].
  destruct (calculate_fps_all rest (calculate_fps t f)). reflexivity.
Qed.

(** X25. [calculate_fps] loses no frame and counts none twice: over any
    sequence of calls, the counter on entry plus the number of calls is the
    sum of the rates published plus the counter left.  A published rate is
    the number of calls since the previous one, the publishing call
    included, and publishing restarts the one-second window at that call's
    clock reading. *)
Theorem fps_accounts_for_every_frame readings f :
  (fps_counter f + Z.of_nat (List.length readings) =
   sum (fst (calculate_fps_all readings f))
   + fps_counter (snd (calculate_fps_all readings f)))%Z /\
  (forall t, (1 <= t - fps_start_time f)%Q ->
             calculate_fps t f = mkFps 0 t (fps_counter f + 1)).
Proof.
  split.
  - revert f. induction readings as [|t rest IH]; intros f.
    + cbn. lia.
    + rewrite calculate_fps_all_cons. cbn [fst snd List.length].
      specialize (IH (calculate_fps t f)).
      unfold calculate_fps in *.
      destruct (Qle_bool 1 (t - fps_start_time f)); cbn [app current_fps fps_counter] in *.
      * rewrite sum_cons. lia.
      * lia.
  - intros t Ht. unfold calculate_fps. apply Qle_bool_iff in Ht. rewrite Ht.
    reflexivity.
Qed.

Lemma fps_accounts_for_every_frame_witness :
  let f := mkFps 0 0 0 in
  let readings := [1 # 4; 1 # 2; 1; 5 # 4; 9 # 4] in
  (fps_counter f + Z.of_nat (List.length readings) =
   sum (fst (calculate_fps_all readings f))
   + fps_counter (snd (calculate_fps_all readings f)))%Z /\
  (forall t, (1 <= t - fps_start_time f)%Q ->
             calculate_fps t f = mkFps 0 t (fps_counter f + 1)).
Proof.
  exact (@fps_accounts_for_every_frame [1 # 4; 1 # 2; 1; 5 # 4; 9 # 4] (mkFps 0 0 0)).
Defined.

(* ================================================================== *)
(** * Dataset collection *)

Lemma save_training_frames_cons n e rest f :
  save_training_frames ((n, e) :: rest) f =
  (map (fun name => (save_clock e, name)) (snd (save_training_frame n e f))
     ++ fst (save_training_frames rest (fst (save_training_frame n e f))),
   snd (save_training_frames rest (fst (save_training_frame n e f)))).
Proof.
  cbn [save_training_frames].
  destruct (save_training_frame n e f) as [f' files]. cbn [fst snd].
  destruct (save_training_frames rest f'). reflexivity.
Qed.

(** One call: nothing happens, or one file is written and the clock
    reading, at least two seconds after the recorded one, is recorded. *)
Lemma save_training_frame_cases n e f :
  save_training_frame n e f = (f, []) \/
  exists name,
    save_training_frame n e f = (mkTraining (save_clock e) (dataset_path f), [name]) /\
    enabled e = true /\
    (2 <= save_clock e - last_save_time f)%Q.
Proof.
  unfold save_training_frame.
  destruct (enabled e); cbn [negb]; [|now left].
  destruct (0 <? n)%Z.
  - destruct (Qle_bool 2 (save_clock e - last_save_time f)) eqn:E; [|now left].
    right. eexists. repeat split. apply Qle_bool_iff. exact E.
  - destruct (Qle_bool 10 (save_clock e - last_save_time f)) eqn:E; [|now left].
    right. eexists. repeat split. apply Qle_bool_iff in E.
    eapply Qle_trans; [|exact E]. unfold Qle; cbn; lia.
Qed.

Lemma saves_spaced calls : forall f,
  spaced 2 (map fst (fst (save_training_frames calls f))) /\
  match map fst (fst (save_training_frames calls f)) with
  | [] => True
  | t :: _ => (2 <= t - last_save_time f)%Q
  end.
Proof.
  induction calls as [|[n e] rest IH]; intros f.
  - cbn. auto.
  - rewrite save_training_frames_cons. cbn [fst snd].
    destruct (save_training_frame_cases n e f) as [->|(name & -> & _ & Hgap)];
      cbn [fst snd map app].
    + apply IH.
    + destruct (IH (mkTraining (save_clock e) (dataset_path f))) as [Hs Hfirst].
      cbn [last_save_time] in Hfirst.
      split; [|exact Hgap].
      destruct (map fst (fst (save_training_frames rest _))) as [|t2 more];
        cbn [spaced]; auto.
Qed.

(** X26. Dataset collection is throttled: over any sequence of calls of
    [save_training_frame], two successive saves are at least two seconds
    apart by the clock readings of their calls, no call writes more than
    one file, and with the switch off (as shipped) nothing is written. *)
Theorem training_saves_are_spaced calls f :
  spaced 2 (map fst (fst (save_training_frames calls f))) /\
  (List.length (fst (save_training_frames calls f)) <= List.length calls)%nat /\
  (Forall (fun call => enabled (snd call) = ENABLE_TRAINING_DATA) calls ->
   fst (save_training_frames calls f) = []).
Proof.
  split; [apply saves_spaced|]. split.
  - revert f. induction calls as [|[n e] rest IH]; intros f; [cbn; lia|].
    rewrite save_training_frames_cons. cbn [fst snd List.length].
    rewrite length_app, length_map.
    destruct (save_training_frame_cases n e f) as [->|(name & -> & _)];
      cbn [fst snd List.length].
    + specialize (IH f). lia.
    + specialize (IH (mkTraining (save_clock e) (dataset_path f))). lia.
  - revert f. induction calls as [|[n e] rest IH]; intros f Hoff; [reflexivity|].
    inversion Hoff as [|? ? He Hrest]; subst. cbn [snd] in He.
    rewrite save_training_frames_cons. cbn [fst].
    unfold save_training_frame at 1 2. rewrite He. cbn [ENABLE_TRAINING_DATA negb snd fst map app].
    apply IH. exact Hrest.
Qed.

Lemma training_saves_are_spaced_witness :
  let f := mkTraining 0 "dataset" in
  let calls := [(3%Z, mkSaveEnv true 2 "a"); (3%Z, mkSaveEnv true 3 "b");
                (0%Z, mkSaveEnv true 13 "c")] in
  spaced 2 (map fst (fst (save_training_frames calls f))) /\
  (List.length (fst (save_training_frames calls f)) <= List.length calls)%nat /\
  (Forall (fun call => enabled (snd call) = ENABLE_TRAINING_DATA) calls ->
   fst (save_training_frames calls f) = []).
Proof.
  exact (@training_saves_are_spaced
           [(3%Z, mkSaveEnv true 2 "a"); (3%Z, mkSaveEnv true 3 "b");
            (0%Z, mkSaveEnv true 13 "c")]
           (mkTraining 0 "dataset")).
Defined.

(* ================================================================== *)
(** * The opposite light *)

(** X27. [get_opposite_light] never answers yellow, the pair of a light and
    its opposite is always one of the four legal pairs, and on red and
    green the function is its own inverse. *)
Theorem opposite_light_is_legal l :
  get_opposite_light l <> Yellow /\
  In (l, get_opposite_light l) legal_pairs /\
  (l <> Yellow -> get_opposite_light (get_opposite_light l) = l).
Proof.
  destruct l; cbn; repeat split; try discriminate; auto 6; congruence.
Qed.

Lemma opposite_light_is_legal_witness :
  get_opposite_light Yellow <> Yellow /\
  In (Yellow, get_opposite_light Yellow) legal_pairs /\
  (Yellow <> Yellow -> get_opposite_light (get_opposite_light Yellow) = Yellow).
Proof.
  exact (@opposite_light_is_legal Yellow).
Defined.

(* ================================================================== *)
(** * Two more properties of the engine and the stabiliser *)

(** X28. Normal mode, a count of at least 8, a working link.  With A on red
    high-traffic mode starts at once: the alert is written, B has the green
    and the direction, and the window starts at this instant.  With A on
    green nothing of that happens yet: A is put on yellow ([AYBR]), a
    clearance starts, and the direction is set to B for its completion. *)
Theorem high_traffic_entry c e s :
  normal_mode s ->
  safe_pair (lights s) = true ->
  (HIGH_TRAFFIC_THRESHOLD <= c)%Z ->
  link_ok e = true ->
  let r := update_traffic_lights c e s in
  (light_a s = Red ->
   result r = Return tt /\
   existsb carries_alert (tx r) = true /\
   lights (self_of r) = (Red, Green) /\
   is_high_traffic_mode (self_of r) = true /\
   high_traffic_direction (self_of r) = DirB /\
   high_traffic_start_time (self_of r) = Some (clock e) /\
   is_yellow_transition (self_of r) = false) /\
  (light_a s = Green ->
   result r = Return tt /\
   tx r = [encode (command Yellow Red false)] /\
   lights (self_of r) = (Yellow, Red) /\
   is_yellow_transition (self_of r) = true /\
   yellow_start_time (self_of r) = Some (clock e) /\
   high_traffic_direction (self_of r) = DirB /\
   is_high_traffic_mode (self_of r) = false).
Proof.
  intros [Hy Hm] Hs Hc Hk r. unfold r, update_traffic_lights.
  rewrite bind_ask, bind_gets, Hy.
  apply Z.leb_le in Hc. rewrite Hc.
  rewrite bind_gets, Hm. cbn [negb]. rewrite bind_gets.
  unfold lights in Hs.
  destruct (light_a s) eqn:Ha, (light_b s) eqn:Hb; cbn in Hs; try discriminate Hs;
    (split; intros Hcol; [try discriminate Hcol | try discriminate Hcol]);
    exec_line; unfold lights; rewrite ?Ha, ?Hb; cbn [pair_eqb light_eqb fst snd andb negb];
    exec_line; rewrite ?Hk; fields; rewrite ?Hy; repeat split;
    congruence.
Qed.

Lemma high_traffic_entry_witness :
  let s := ex_green_a in
  let e := at_time 7 true in
  let r := update_traffic_lights 9 e s in
  (light_a s = Red ->
   result r = Return tt /\
   existsb carries_alert (tx r) = true /\
   lights (self_of r) = (Red, Green) /\
   is_high_traffic_mode (self_of r) = true /\
   high_traffic_direction (self_of r) = DirB /\
   high_traffic_start_time (self_of r) = Some (clock e) /\
   is_yellow_transition (self_of r) = false) /\
  (light_a s = Green ->
   result r = Return tt /\
   tx r = [encode (command Yellow Red false)] /\
   lights (self_of r) = (Yellow, Red) /\
   is_yellow_transition (self_of r) = true /\
   yellow_start_time (self_of r) = Some (clock e) /\
   high_traffic_direction (self_of r) = DirB /\
   is_high_traffic_mode (self_of r) = false).
Proof.
  apply (@high_traffic_entry 9 (at_time 7 true) ex_green_a).
  - split; reflexivity.
  - reflexivity.
  - unfold HIGH_TRAFFIC_THRESHOLD. lia.
  - reflexivity.
Defined.

Lemma push_sample_skipn h x :
  (List.length h <= DETECTION_HISTORY_SIZE)%nat ->
  push_sample h x =
  skipn (List.length (h ++ [x]) - DETECTION_HISTORY_SIZE) (h ++ [x]).
Proof.
  intros Hl. unfold push_sample.
  destruct (Nat.ltb_spec DETECTION_HISTORY_SIZE (List.length (h ++ [x]))) as [H|H].
  - rewrite length_app in *. cbn [List.length] in *.
    replace (List.length h + 1 - DETECTION_HISTORY_SIZE)%nat with 1%nat by lia.
    destruct (h ++ [x]); reflexivity.
  - replace (List.length (h ++ [x]) - DETECTION_HISTORY_SIZE)%nat with 0%nat by lia.
    reflexivity.
Qed.

Lemma observe_all_snd raw t rest s :
  snd (observe_all ((raw, t) :: rest) s) =
  snd (observe_all rest (self_of (get_confirmed_car_count raw (mkEnv t t true) s))).
Proof.
  cbn [observe_all].
  destruct (observe_all rest (self_of (get_confirmed_car_count raw (mkEnv t t true) s))).
  reflexivity.
Qed.

(** X29. The detection history is a first-in first-out window: after any
    stream of samples it holds the most recent [DETECTION_HISTORY_SIZE]
    counts of what it held before followed by the stream, oldest first. *)
Theorem window_holds_latest_samples samples : forall s,
  (List.length (detection_history s) <= DETECTION_HISTORY_SIZE)%nat ->
  let all := detection_history s ++ map fst samples in
  detection_history (snd (observe_all samples s)) =
  skipn (List.length all - DETECTION_HISTORY_SIZE) all.
Proof.
  induction samples as [|[raw t] rest IH]; intros s Hl all; unfold all.
  - cbn [map observe_all snd]. rewrite app_nil_r.
    replace (_ - _)%nat with 0%nat by lia. reflexivity.
  - rewrite observe_all_snd.
    set (s1 := self_of (get_confirmed_car_count raw (mkEnv t t true) s)).
    destruct (observe_spec raw (mkEnv t t true) s) as (_ & _ & Hh1 & _).
    fold s1 in Hh1.
    assert (Hl1 : (List.length (detection_history s1) <= DETECTION_HISTORY_SIZE)%nat)
      by (rewrite Hh1; apply push_sample_length; exact Hl).
    rewrite (IH s1 Hl1), Hh1, (@push_sample_skipn (detection_history s) raw Hl).
    cbn [map fst].
    replace (detection_history s ++ raw :: map fst rest)
      with ((detection_history s ++ [raw]) ++ map fst rest)
      by (rewrite <- app_assoc; reflexivity).
    set (l := detection_history s ++ [raw]).
    set (k := (List.length l - DETECTION_HISTORY_SIZE)%nat).
    assert (Hk : (k <= List.length l)%nat) by (unfold k; lia).
    assert (Happ : skipn k l ++ map fst rest = skipn k (l ++ map fst rest)).
    { rewrite skipn_app. replace (k - List.length l)%nat with 0%nat by lia.
      reflexivity. }
    rewrite Happ, skipn_skipn. f_equal.
    rewrite length_skipn, !length_app.
    assert (List.length l <= S DETECTION_HISTORY_SIZE)%nat
      by (unfold l; rewrite length_app; cbn [List.length]; lia).
    unfold k. lia.
Qed.

Lemma window_holds_latest_samples_witness :
  let samples := map (fun x => (x, 1%Q)) [1; 2; 3; 4; 5; 6; 7; 8; 9; 10; 11; 12]%Z in
  let all := detection_history (init 0) ++ map fst samples in
  detection_history (snd (observe_all samples (init 0))) =
  skipn (List.length all - DETECTION_HISTORY_SIZE) all.
Proof.
  apply (@window_holds_latest_samples
           (map (fun x => (x, 1%Q)) [1; 2; 3; 4; 5; 6; 7; 8; 9; 10; 11; 12]%Z) (init 0)).
  cbn. unfold DETECTION_HISTORY_SIZE. lia.
Defined.
